(** * pvp-wheel: the game session engine

    A shallow embedding of the parts of the repository that decide the
    session properties: the PL/pgSQL functions [recalculate_game_chances]
    and [add_gifts_to_game] of the SQL schema script (the version with
    [countdown_ends_at] and [match_history]) together with the
    constraints that script declares, the database helpers of
    [src/lib/supabase.ts] (the version that writes [match_history]), the
    hook [src/hooks/useGameDatabase.ts] and the component
    [src/app/components/WheelGame.tsx].

    Conventions of the embedding.
    - [uuid] values are integers; [gen_random_uuid()] draws from a supply
      kept in the store.
    - An SQL [numeric] is its rational value ([Q]).  Sums and products of
      [numeric] values are exact; a quotient is rounded as PostgreSQL
      rounds it ([numeric_div]).  The display scale PostgreSQL keeps with
      a value is not modelled: the result scale of a division is taken
      from the two values alone (the display scales of the operands can
      only raise it).
    - A JavaScript [number] is an exact rational in the code that only
      carries it (the helpers, the hook, the bookkeeping of [spinWheel]);
      the arithmetic of the winner selection is also given in IEEE 754
      binary64, as it runs ([Doubles]).
    - SQL [integer] is [Z] with the range check PostgreSQL performs.
    - [timestamp with time zone] is a number of seconds; [now()] is an
      argument of the operation.
    - A table is the list of its rows in storage order; a query without
      [ORDER BY] returns the rows in that order.
    - A raised error aborts the operation and leaves the store as it
      was: operations return [result db]. *)

From Stdlib Require Import ZArith QArith Qround Qabs Qpower List String Bool Lia Lqa.
From Stdlib Require Import Sorting.Permutation.
From Stdlib Require Import Floats.
Import ListNotations.

Local Open Scope Z_scope.

(** ** Errors and the error monad *)

Inductive error : Set :=
| foreign_key_violation      (* SQLSTATE 23503 *)
| numeric_value_out_of_range (* SQLSTATE 22003 *)
| not_null_violation         (* SQLSTATE 23502 *)
| invalid_column_reference   (* SQLSTATE 42P10: no unique index for ON CONFLICT *)
| PGRST116                   (* [.single()] did not get exactly one row *)
| PGRST200.                  (* no relationship for an embedded resource *)

Inductive result (A : Type) : Type :=
| Ok (a : A)
| Raise (e : error).

Arguments Ok {A} a.
Arguments Raise {A} e.

Definition bind {A B : Type} (m : result A) (k : A -> result B) : result B :=
  match m with
  | Ok a => k a
  | Raise e => Raise e
  end.

Notation "x <- m ;; k" := (bind m (fun x => k))
  (at level 61, m at next level, right associativity).
Notation "' p <- m ;; k" := (bind m (fun x => match x with p => k end))
  (at level 61, p pattern, m at next level, right associativity).

Fixpoint mapM {A B : Type} (f : A -> result B) (l : list A) : result (list B) :=
  match l with
  | [] => Ok []
  | a :: l' => b <- f a ;; bs <- mapM f l' ;; Ok (b :: bs)
  end.

Definition uuid := Z.
Definition timestamptz := Z.

Bind Scope Z_scope with uuid timestamptz.

(** The cast to, and every result stored in, an [integer]. *)
Definition int4 (z : Z) : result Z :=
  if (-2147483648 <=? z) && (z <=? 2147483647) then Ok z
  else Raise numeric_value_out_of_range.

(** JavaScript's [a || b] on a nullable string: [null], [undefined] and
    the empty string are falsy. *)
Definition truthy (s : option string) : option string :=
  match s with
  | Some EmptyString => None
  | other => other
  end.

Definition or_default (a : option string) (b : string) : string :=
  match truthy a with
  | Some s => s
  | None => b
  end.

(** ** The tables of the schema *)

Module Players.
Record Row : Type := {
    id : uuid;
    telegram_user_id : Z;
    username : option string;
    first_name : option string;
    last_name : option string;
    photo_url : option string
  }.
End Players.

Module Games.
Record Row : Type := {
    id : uuid;
    roll_number : Z;
    status : string;
    total_pot_balance : Q;
    total_players : Z;
    winner_player_id : option uuid;
    winner_chance : option Q;
    countdown_ends_at : option timestamptz;
    completed_at : option timestamptz
  }.

Definition set_totals (pot : Q) (n : Z) (g : Row) : Row :=
    {| id := id g; roll_number := roll_number g; status := status g;
       total_pot_balance := pot; total_players := n;
       winner_player_id := winner_player_id g;
       winner_chance := winner_chance g;
       countdown_ends_at := countdown_ends_at g;
       completed_at := completed_at g |}.

Definition set_countdown_ends_at (t : option timestamptz) (g : Row) : Row :=
    {| id := id g; roll_number := roll_number g; status := status g;
       total_pot_balance := total_pot_balance g;
       total_players := total_players g;
       winner_player_id := winner_player_id g;
       winner_chance := winner_chance g;
       countdown_ends_at := t;
       completed_at := completed_at g |}.

Definition set_completed (w : uuid) (t : timestamptz) (g : Row) : Row :=
    {| id := id g; roll_number := roll_number g; status := "completed";
       total_pot_balance := total_pot_balance g;
       total_players := total_players g;
       winner_player_id := Some w;
       winner_chance := winner_chance g;
       countdown_ends_at := countdown_ends_at g;
       completed_at := Some t |}.

Definition set_status (s : string) (g : Row) : Row :=
    {| id := id g; roll_number := roll_number g; status := s;
       total_pot_balance := total_pot_balance g;
       total_players := total_players g;
       winner_player_id := winner_player_id g;
       winner_chance := winner_chance g;
       countdown_ends_at := countdown_ends_at g;
       completed_at := completed_at g |}.
End Games.

Module GameParticipants.
Record Row : Type := {
    id : uuid;
    game_id : uuid;
    player_id : uuid;
    player_name : string;
    gift_value : Q;
    chance_percentage : Q;
    color : option string;
    position : option Z;
    gifts_array : list string
  }.

Definition set_chance_percentage (c : Q) (r : Row) : Row :=
    {| id := id r; game_id := game_id r; player_id := player_id r;
       player_name := player_name r; gift_value := gift_value r;
       chance_percentage := c; color := color r; position := position r;
       gifts_array := gifts_array r |}.

Definition set_gifts (v : Q) (a : list string) (r : Row) : Row :=
    {| id := id r; game_id := game_id r; player_id := player_id r;
       player_name := player_name r; gift_value := v;
       chance_percentage := chance_percentage r; color := color r;
       position := position r; gifts_array := a |}.
End GameParticipants.

Module Gifts.
Record Row : Type := {
    id : uuid;
    emoji : string;
    name : string;
    base_value : Q
  }.
End Gifts.

Module PlayerGifts.
Record Row : Type := {
    player_id : uuid;
    gift_id : uuid;
    quantity : Z
  }.
End PlayerGifts.

Module GameParticipantGifts.
Record Row : Type := {
    game_participant_id : uuid;
    gift_id : uuid;
    quantity : Z;
    total_value : Q;
    added_at : timestamptz
  }.
End GameParticipantGifts.

(** The text of a log line, kept in its parts:
    [p_player_name || '...' || v_current_gift_value::text || ' TON!']
    from [add_gifts_to_game], and the two lines [spinWheel] sends. *)
Inductive log_message : Type :=
| added_gifts (player_name : string) (value : Q)
| wheel_spinning
| winner_announced (winner_name : string) (totalGiftValue : Q).

Module GameLogs.
Record Row : Type := {
    game_id : uuid;
    player_id : option uuid;
    log_type : string;
    message : log_message
  }.
End GameLogs.

(** The embedded resource [players(telegram_user_id, username,
    first_name, last_name, photo_url)] of a participant row. *)
Record embedded_player : Type := {
  e_telegram_user_id : Z;
  e_username : option string;
  e_first_name : option string;
  e_last_name : option string;
  e_photo_url : option string
}.

(** One element of the [players_snapshot] JSON array written by
    [completeGame]: the selected participant columns and, under the key
    [telegram_user_id], the embedded [players] columns. *)
Record snapshot_entry : Type := {
  snap_player_id : uuid;
  snap_player_name : string;
  snap_gift_value : Q;
  snap_chance_percentage : Q;
  snap_color : option string;
  snap_telegram_user_id : option embedded_player
}.

Module MatchHistory.
Record Row : Type := {
    game_id : uuid;
    roll_number : Z;
    winner_player_id : uuid;
    winner_name : string;
    winner_chance : Q;
    total_pot : Q;
    players_snapshot : list snapshot_entry;
    timestamp : timestamptz
  }.
End MatchHistory.

Record db : Type := {
  players : list Players.Row;
  games : list Games.Row;
  game_participants : list GameParticipants.Row;
  gifts : list Gifts.Row;
  player_gifts : list PlayerGifts.Row;
  game_participant_gifts : list GameParticipantGifts.Row;
  game_logs : list GameLogs.Row;
  match_history : list MatchHistory.Row;
  uuid_supply : uuid
}.

Definition with_players (v : list Players.Row) (d : db) : db :=
  {| players := v; games := games d;
     game_participants := game_participants d; gifts := gifts d;
     player_gifts := player_gifts d;
     game_participant_gifts := game_participant_gifts d;
     game_logs := game_logs d; match_history := match_history d;
     uuid_supply := uuid_supply d |}.

Definition with_games (v : list Games.Row) (d : db) : db :=
  {| players := players d; games := v;
     game_participants := game_participants d; gifts := gifts d;
     player_gifts := player_gifts d;
     game_participant_gifts := game_participant_gifts d;
     game_logs := game_logs d; match_history := match_history d;
     uuid_supply := uuid_supply d |}.

Definition with_game_participants (v : list GameParticipants.Row) (d : db) : db :=
  {| players := players d; games := games d;
     game_participants := v; gifts := gifts d;
     player_gifts := player_gifts d;
     game_participant_gifts := game_participant_gifts d;
     game_logs := game_logs d; match_history := match_history d;
     uuid_supply := uuid_supply d |}.

Definition with_player_gifts (v : list PlayerGifts.Row) (d : db) : db :=
  {| players := players d; games := games d;
     game_participants := game_participants d; gifts := gifts d;
     player_gifts := v;
     game_participant_gifts := game_participant_gifts d;
     game_logs := game_logs d; match_history := match_history d;
     uuid_supply := uuid_supply d |}.

Definition with_game_participant_gifts (v : list GameParticipantGifts.Row) (d : db) : db :=
  {| players := players d; games := games d;
     game_participants := game_participants d; gifts := gifts d;
     player_gifts := player_gifts d;
     game_participant_gifts := v;
     game_logs := game_logs d; match_history := match_history d;
     uuid_supply := uuid_supply d |}.

Definition with_game_logs (v : list GameLogs.Row) (d : db) : db :=
  {| players := players d; games := games d;
     game_participants := game_participants d; gifts := gifts d;
     player_gifts := player_gifts d;
     game_participant_gifts := game_participant_gifts d;
     game_logs := v; match_history := match_history d;
     uuid_supply := uuid_supply d |}.

Definition with_match_history (v : list MatchHistory.Row) (d : db) : db :=
  {| players := players d; games := games d;
     game_participants := game_participants d; gifts := gifts d;
     player_gifts := player_gifts d;
     game_participant_gifts := game_participant_gifts d;
     game_logs := game_logs d; match_history := v;
     uuid_supply := uuid_supply d |}.

Definition with_uuid_supply (v : uuid) (d : db) : db :=
  {| players := players d; games := games d;
     game_participants := game_participants d; gifts := gifts d;
     player_gifts := player_gifts d;
     game_participant_gifts := game_participant_gifts d;
     game_logs := game_logs d; match_history := match_history d;
     uuid_supply := v |}.

(** [UPDATE t SET ... WHERE cond]: the rows that satisfy [cond] are
    rewritten in place. *)
Definition update_where {A : Type} (cond : A -> bool) (set : A -> A) (t : list A) : list A :=
  map (fun r => if cond r then set r else r) t.

(** ** recalculate_game_chances *)

Definition in_game (p_game_id : uuid) (gp : GameParticipants.Row) : bool :=
  GameParticipants.game_id gp =? p_game_id.

Definition participants_of (p_game_id : uuid) (d : db) : list GameParticipants.Row :=
  filter (in_game p_game_id) (game_participants d).

(** [COALESCE(SUM(gp.gift_value), 0)]. *)
Definition SUM (vs : list Q) : Q := fold_right Qplus 0%Q vs.

Definition sum_gift_value (rows : list GameParticipants.Row) : Q :=
  SUM (map GameParticipants.gift_value rows).

(** [v > 0] on [numeric]. *)
Definition Qpositive (v : Q) : bool := negb (Qle_bool v 0).

(** ** The constraints of the schema script

    The primary keys and [UNIQUE] constraints, table by table: the
    indexes an [ON CONFLICT (columns)] clause can name.  (The
    [CREATE INDEX] statements at the end of the script create no unique
    index.) *)
Definition unique_indexes : list (string * list string) :=
  [ ("players", ["id"]); ("players", ["telegram_user_id"]);
    ("games", ["id"]); ("games", ["roll_number"]);
    ("game_participants", ["id"]);
    ("game_participants", ["game_id"; "player_id"]);
    ("gifts", ["id"]); ("gifts", ["emoji"]); ("gifts", ["name"]);
    ("player_gifts", ["id"]); ("player_gifts", ["player_id"; "gift_id"]);
    ("game_participant_gifts", ["id"]);
    ("game_logs", ["id"]);
    ("match_history", ["id"]) ]%string.

Definition same_columns (a b : list string) : bool :=
  forallb (fun c => existsb (String.eqb c) b) a &&
  forallb (fun c => existsb (String.eqb c) a) b.

(** The inference of the arbiter index of [ON CONFLICT (columns)]: a
    unique index on exactly these columns. *)
Definition arbiter_index (table : string) (columns : list string) : bool :=
  existsb (fun i => String.eqb (fst i) table && same_columns (snd i) columns)
          unique_indexes.

(** The [REFERENCES] clauses: the table, its column, the table referred
    to. *)
Definition foreign_keys : list (string * string * string) :=
  [ ("games", "winner_player_id", "players");
    ("game_participants", "game_id", "games");
    ("game_participants", "player_id", "players");
    ("player_gifts", "player_id", "players");
    ("player_gifts", "gift_id", "gifts");
    ("game_participant_gifts", "game_participant_id", "game_participants");
    ("game_participant_gifts", "gift_id", "gifts");
    ("game_logs", "game_id", "games");
    ("game_logs", "player_id", "players");
    ("match_history", "game_id", "games");
    ("match_history", "winner_player_id", "players") ]%string.

Definition references (a b : string) : bool :=
  existsb (fun k => String.eqb (fst (fst k)) a && String.eqb (snd k) b) foreign_keys.

(** The relationships through which PostgREST embeds one resource in
    another: a foreign key between the two tables, in either direction,
    or a third table that refers to both. *)
Definition relationship (a b : string) : bool :=
  references a b || references b a ||
  existsb (fun k => references (fst (fst k)) a && references (fst (fst k)) b)
          foreign_keys.

(** ** Division of [numeric] values

    PostgreSQL's [numeric_div]: the result scale is chosen from the
    weights and the first digits of the operands in base 10000, so that
    the quotient has at least 16 significant digits
    ([select_div_scale]), and the exact quotient is rounded to that
    scale, half away from zero. *)

Definition NBASE : Q := 10000.

Fixpoint climb (fuel : nat) (x : Q) (w : Z) : Z :=
  match fuel with
  | O => w
  | S f => if Qle_bool (NBASE ^ (w + 1)) x then climb f x (w + 1) else w
  end.

Fixpoint descend (fuel : nat) (x : Q) (w : Z) : Z :=
  match fuel with
  | O => w
  | S f => if Qle_bool (NBASE ^ w) x then w else descend f x (w - 1)
  end.

(** The weight of the first non-zero base-10000 digit of [x]: the [w]
    with [NBASE ^ w <= |x| < NBASE ^ (w + 1)], and 0 for 0. *)
Definition weight (x : Q) : Z :=
  let a := Qabs x in
  if Qeq_bool a 0 then 0
  else if Qle_bool 1 a then climb (Z.to_nat (Z.log2 (Z.abs (Qnum x)))) a 0
  else descend (Z.to_nat (Z.log2 (Zpos (Qden x)))) a (-1).

Definition first_digit (x : Q) : Z :=
  Qfloor (Qabs x / NBASE ^ weight x).

Definition select_div_scale (var1 var2 : Q) : Z :=
  let qweight :=
    weight var1 - weight var2
    - (if first_digit var1 <=? first_digit var2 then 1 else 0) in
  Z.min (Z.max (16 - qweight * 4) 0) 1000.

Definition round_var (rscale : Z) (x : Q) : Q :=
  let p := inject_Z (10 ^ rscale) in
  if Qle_bool 0 x
  then (inject_Z (Qfloor (x * p + (1 # 2))) / p)%Q
  else (- (inject_Z (Qfloor (- x * p + (1 # 2))) / p))%Q.

Definition numeric_div (var1 var2 : Q) : Q :=
  round_var (select_div_scale var1 var2) (var1 / var2).

Definition chance_of (v_total_pot_value : Q) (gp : GameParticipants.Row) : Q :=
  if Qpositive v_total_pot_value
  then (numeric_div (GameParticipants.gift_value gp) v_total_pot_value * 100)%Q
  else 0%Q.

Definition recalculate_game_chances (p_game_id : uuid) (d : db) : result db :=
  let rows := participants_of p_game_id d in
  let v_total_pot_value := sum_gift_value rows in
  v_total_players <- int4 (Z.of_nat (List.length rows)) ;;
  let d1 :=
    with_game_participants
      (update_where (in_game p_game_id)
         (fun gp => GameParticipants.set_chance_percentage
                      (chance_of v_total_pot_value gp) gp)
         (game_participants d)) d in
  Ok (with_games
        (update_where (fun g => Games.id g =? p_game_id)
           (Games.set_totals v_total_pot_value v_total_players)
           (games d1)) d1).

(** ** add_gifts_to_game

    PL/pgSQL sets the targets of a [SELECT ... INTO] that finds no row
    to [NULL]: the locals are optional values, [None] for [NULL]. *)

Record gift_selection : Type := {
  giftId : uuid;
  quantity : Z;
  totalValue : Q
}.

Definition is_participant (p_game_id p_player_id : uuid) (gp : GameParticipants.Row) : bool :=
  (GameParticipants.game_id gp =? p_game_id) &&
  (GameParticipants.player_id gp =? p_player_id).

Definition game_exists (p_game_id : uuid) (d : db) : bool :=
  existsb (fun g => Games.id g =? p_game_id) (games d).

Definition player_exists (p_player_id : uuid) (d : db) : bool :=
  existsb (fun p => Players.id p =? p_player_id) (players d).

(** [INSERT INTO game_participants ... RETURNING id], with the two
    foreign keys of the table. *)
Definition insert_game_participant (p_game_id p_player_id : uuid)
  (p_player_name p_player_color : string) (p_player_position : Z) (d : db)
  : result (uuid * db) :=
  if negb (game_exists p_game_id d) then Raise foreign_key_violation
  else if negb (player_exists p_player_id d) then Raise foreign_key_violation
  else
    let new_id := uuid_supply d in
    let row :=
      {| GameParticipants.id := new_id;
         GameParticipants.game_id := p_game_id;
         GameParticipants.player_id := p_player_id;
         GameParticipants.player_name := p_player_name;
         GameParticipants.gift_value := 0%Q;
         GameParticipants.chance_percentage := 0%Q;
         GameParticipants.color := Some p_player_color;
         GameParticipants.position := Some p_player_position;
         GameParticipants.gifts_array := [] |} in
    Ok (new_id,
        with_uuid_supply (new_id + 1)
          (with_game_participants (game_participants d ++ [row]) d)).

Definition same_gift (v_game_participant_id v_gift_id : uuid)
  (r : GameParticipantGifts.Row) : bool :=
  (GameParticipantGifts.game_participant_id r =? v_game_participant_id) &&
  (GameParticipantGifts.gift_id r =? v_gift_id).

(** [INSERT INTO game_participant_gifts ... ON CONFLICT
    (game_participant_id, gift_id) DO UPDATE ...].  The arbiter index is
    inferred when the statement is planned, at its first execution and
    before any row is looked at; without one the statement is refused. *)
Definition upsert_game_participant_gift (now : timestamptz)
  (v_game_participant_id v_gift_id : uuid) (v_quantity : Z) (v_total_value : Q)
  (d : db) : result (list GameParticipantGifts.Row) :=
  let t := game_participant_gifts d in
  if negb (arbiter_index "game_participant_gifts" ["game_participant_id"%string; "gift_id"%string])
  then Raise invalid_column_reference
  else if negb (existsb (fun g => Gifts.id g =? v_gift_id) (gifts d))
  then Raise foreign_key_violation
  else if existsb (same_gift v_game_participant_id v_gift_id) t then
    mapM (fun r =>
            if same_gift v_game_participant_id v_gift_id r then
              q <- int4 (GameParticipantGifts.quantity r + v_quantity) ;;
              Ok {| GameParticipantGifts.game_participant_id :=
                      GameParticipantGifts.game_participant_id r;
                    GameParticipantGifts.gift_id := GameParticipantGifts.gift_id r;
                    GameParticipantGifts.quantity := q;
                    GameParticipantGifts.total_value :=
                      (GameParticipantGifts.total_value r + v_total_value)%Q;
                    GameParticipantGifts.added_at := now |}
            else Ok r) t
  else
    Ok (t ++ [ {| GameParticipantGifts.game_participant_id := v_game_participant_id;
                  GameParticipantGifts.gift_id := v_gift_id;
                  GameParticipantGifts.quantity := v_quantity;
                  GameParticipantGifts.total_value := v_total_value;
                  GameParticipantGifts.added_at := now |} ]).

Definition owns (p_player_id v_gift_id : uuid) (r : PlayerGifts.Row) : bool :=
  (PlayerGifts.player_id r =? p_player_id) && (PlayerGifts.gift_id r =? v_gift_id).

(** [UPDATE player_gifts SET quantity = quantity - v_quantity WHERE ...]:
    no comparison with the quantity the player holds. *)
Definition debit_player_gifts (p_player_id v_gift_id : uuid) (v_quantity : Z)
  (t : list PlayerGifts.Row) : result (list PlayerGifts.Row) :=
  mapM (fun r =>
          if owns p_player_id v_gift_id r then
            q <- int4 (PlayerGifts.quantity r - v_quantity) ;;
            Ok {| PlayerGifts.player_id := PlayerGifts.player_id r;
                  PlayerGifts.gift_id := PlayerGifts.gift_id r;
                  PlayerGifts.quantity := q |}
          else Ok r) t.

(** The local variables the selection loop carries. *)
Record locals : Type := {
  v_current_gift_value : option Q;
  v_current_gifts_array : option (list string)
}.

(** [FOR i IN 1..v_quantity LOOP v := array_append(v, v_gift_emoji)]:
    [array_append] of [NULL] and an element is the one-element array. *)
Definition append_emojis (v : option (list string)) (v_gift_emoji : string)
  (v_quantity : Z) : option (list string) :=
  if v_quantity <=? 0 then v
  else Some (match v with Some a => a | None => [] end
             ++ repeat v_gift_emoji (Z.to_nat v_quantity)).

(** One iteration of [FOR v_gift_selection IN ... LOOP]. *)
Definition process_selection (now : timestamptz) (p_player_id v_game_participant_id : uuid)
  (st : locals * db) (v_gift_selection : gift_selection) : result (locals * db) :=
  let '(v, d) := st in
  let v_gift_id := giftId v_gift_selection in
  v_quantity <- int4 (quantity v_gift_selection) ;;
  let v_total_value := totalValue v_gift_selection in
  let gift := find (fun g => Gifts.id g =? v_gift_id) (gifts d) in
  gpg <- upsert_game_participant_gift now v_game_participant_id v_gift_id
           v_quantity v_total_value d ;;
  pg <- debit_player_gifts p_player_id v_gift_id v_quantity (player_gifts d) ;;
  match gift with
  | None => Raise foreign_key_violation
  | Some g =>
      Ok ({| v_current_gift_value :=
               option_map (fun c => (c + v_total_value)%Q) (v_current_gift_value v);
             v_current_gifts_array :=
               append_emojis (v_current_gifts_array v) (Gifts.emoji g) v_quantity |},
          with_player_gifts pg (with_game_participant_gifts gpg d))
  end.

Fixpoint process_selections (now : timestamptz) (p_player_id v_game_participant_id : uuid)
  (st : locals * db) (p_gift_selections : list gift_selection) : result (locals * db) :=
  match p_gift_selections with
  | [] => Ok st
  | s :: rest =>
      st' <- process_selection now p_player_id v_game_participant_id st s ;;
      process_selections now p_player_id v_game_participant_id st' rest
  end.

(** [UPDATE games SET countdown_ends_at = COALESCE(countdown_ends_at,
    now() + interval '60 seconds') WHERE id = p_game_id AND
    countdown_ends_at IS NULL]. *)
Definition start_countdown (now : timestamptz) (p_game_id : uuid) (d : db) : db :=
  with_games
    (update_where
       (fun g => (Games.id g =? p_game_id) &&
                 match Games.countdown_ends_at g with None => true | Some _ => false end)
       (fun g => Games.set_countdown_ends_at
                   (Some match Games.countdown_ends_at g with
                         | Some t => t
                         | None => now + 60
                         end) g)
       (games d)) d.

(** The lookup of the player's row and the [IF v_game_participant_id IS
    NULL] block: the row's id, the locals and the store.  Without a row
    the three targets of the [SELECT ... INTO] are [NULL], and the insert
    sets the first of them only. *)
Definition find_or_insert_participant (p_game_id p_player_id : uuid)
  (p_player_name p_player_color : string) (p_player_position : Z) (d : db)
  : result (uuid * locals * db) :=
  match find (is_participant p_game_id p_player_id) (game_participants d) with
  | Some gp =>
      Ok (GameParticipants.id gp,
          {| v_current_gift_value := Some (GameParticipants.gift_value gp);
             v_current_gifts_array := Some (GameParticipants.gifts_array gp) |},
          d)
  | None =>
      '(new_id, d') <- insert_game_participant p_game_id p_player_id
                         p_player_name p_player_color p_player_position d ;;
      Ok (new_id,
          {| v_current_gift_value := None; v_current_gifts_array := None |},
          d')
  end.

(** [UPDATE game_participants SET gift_value = ..., gifts_array = ...
    WHERE id = v_game_participant_id]: both columns are [NOT NULL]. *)
Definition store_gifts (v_game_participant_id : uuid) (v : locals) (d : db) : result db :=
  match v_current_gift_value v, v_current_gifts_array v with
  | Some value, Some array =>
      Ok (with_game_participants
            (update_where (fun gp => GameParticipants.id gp =? v_game_participant_id)
               (GameParticipants.set_gifts value array)
               (game_participants d)) d)
  | _, _ =>
      if existsb (fun gp => GameParticipants.id gp =? v_game_participant_id)
                 (game_participants d)
      then Raise not_null_violation
      else Ok d
  end.

(** [INSERT INTO game_logs ...], with the two foreign keys of the table;
    the message is the concatenation of the name, the value as text and
    two constants, [NULL] when the value is. *)
Definition insert_join_log (p_game_id p_player_id : uuid) (p_player_name : string)
  (value : option Q) (d : db) : result db :=
  match value with
  | None => Raise not_null_violation
  | Some value =>
      if negb (game_exists p_game_id d && player_exists p_player_id d)
      then Raise foreign_key_violation
      else
        Ok (with_game_logs
              (game_logs d ++
                 [ {| GameLogs.game_id := p_game_id;
                      GameLogs.player_id := Some p_player_id;
                      GameLogs.log_type := "join";
                      GameLogs.message := added_gifts p_player_name value |} ]) d)
  end.

Definition add_gifts_to_game (now : timestamptz) (p_game_id p_player_id : uuid)
  (p_gift_selections : list gift_selection) (p_player_color : string)
  (p_player_position : Z) (p_player_name : string) (d : db) : result db :=
  '(v_game_participant_id, v0, d1) <-
    find_or_insert_participant p_game_id p_player_id p_player_name
      p_player_color p_player_position d ;;
  '(v, d2) <- process_selections now p_player_id v_game_participant_id
                (v0, d1) p_gift_selections ;;
  d3 <- store_gifts v_game_participant_id v d2 ;;
  d4 <- recalculate_game_chances p_game_id d3 ;;
  v_participant_count <- int4 (Z.of_nat (List.length (participants_of p_game_id d4))) ;;
  let d5 := if 2 <=? v_participant_count then start_countdown now p_game_id d4 else d4 in
  insert_join_log p_game_id p_player_id p_player_name (v_current_gift_value v) d5.

(** ** src/lib/supabase.ts *)

(** A column of the upsert: an [undefined] field of [telegramUser] is
    left out of the request body, and the update of the conflicting row
    sets only the columns that are sent. *)
Definition sent (field column : option string) : option string :=
  match field with
  | Some s => Some s
  | None => column
  end.

(** [initializePlayer]: the upsert on [telegram_user_id] (a unique
    column) rewrites the profile columns that are sent and keeps the
    [id] and the other columns of an existing player; a new player gets
    [NULL] for the fields that are not sent. *)
Definition initializePlayer (tg_id : Z) (tg_username tg_first_name tg_last_name
  tg_photo_url : option string) (d : db) : db :=
  let merged (p : Players.Row) : Players.Row :=
    {| Players.id := Players.id p;
       Players.telegram_user_id := tg_id;
       Players.username := sent tg_username (Players.username p);
       Players.first_name := sent tg_first_name (Players.first_name p);
       Players.last_name := sent tg_last_name (Players.last_name p);
       Players.photo_url := sent tg_photo_url (Players.photo_url p) |} in
  if existsb (fun p => Players.telegram_user_id p =? tg_id) (players d) then
    with_players
      (update_where (fun p => Players.telegram_user_id p =? tg_id) merged (players d)) d
  else
    with_uuid_supply (uuid_supply d + 1)
      (with_players
         (players d ++
            [ {| Players.id := uuid_supply d;
                 Players.telegram_user_id := tg_id;
                 Players.username := tg_username;
                 Players.first_name := tg_first_name;
                 Players.last_name := tg_last_name;
                 Players.photo_url := tg_photo_url |} ]) d).

(** The embedded resource [players(...)] of a participant row. *)
Definition players_of (p_player_id : uuid) (d : db) : option Players.Row :=
  find (fun p => Players.id p =? p_player_id) (players d).

(** [getGameParticipants]: [select("*, players(*)").eq("game_id", gameId)],
    no [order]. *)
Definition getGameParticipants (gameId : uuid) (d : db)
  : list (GameParticipants.Row * option Players.Row) :=
  map (fun gp => (gp, players_of (GameParticipants.player_id gp) d))
      (participants_of gameId d).

Definition snapshot_of (d : db) (gp : GameParticipants.Row) : snapshot_entry :=
  {| snap_player_id := GameParticipants.player_id gp;
     snap_player_name := GameParticipants.player_name gp;
     snap_gift_value := GameParticipants.gift_value gp;
     snap_chance_percentage := GameParticipants.chance_percentage gp;
     snap_color := GameParticipants.color gp;
     snap_telegram_user_id :=
       option_map
         (fun w => {| e_telegram_user_id := Players.telegram_user_id w;
                      e_username := Players.username w;
                      e_first_name := Players.first_name w;
                      e_last_name := Players.last_name w;
                      e_photo_url := Players.photo_url w |})
         (players_of (GameParticipants.player_id gp) d) |}.

(** [completeGame].  Its requests are separate transactions, so it
    returns the store it leaves together with the error it throws, if
    any.  [winnerChance] is [None] for a number JSON cannot carry ([NaN],
    sent as [null]). *)
Definition completeGame (now : timestamptz) (gameId winnerPlayerId : uuid)
  (winnerChance : option Q) (totalPot : Q) (d : db) : db * option error :=
  let participants := map (snapshot_of d) (participants_of gameId d) in
  match filter (fun p => Players.id p =? winnerPlayerId) (players d) with
  | [winnerData] =>
      let winnerName :=
        or_default (Players.username winnerData)
          (or_default (Players.first_name winnerData) "Unknown Winner") in
      let d1 :=
        with_games
          (update_where (fun g => Games.id g =? gameId)
             (Games.set_completed winnerPlayerId now) (games d)) d in
      match filter (fun g => Games.id g =? gameId) (games d1) with
      | [data] =>
          match winnerChance with
          | None => (d1, Some not_null_violation)
          | Some chance =>
              (with_match_history
                 (match_history d1 ++
                    [ {| MatchHistory.game_id := gameId;
                         MatchHistory.roll_number := Games.roll_number data;
                         MatchHistory.winner_player_id := winnerPlayerId;
                         MatchHistory.winner_name := winnerName;
                         MatchHistory.winner_chance := chance;
                         MatchHistory.total_pot := totalPot;
                         MatchHistory.players_snapshot := participants;
                         MatchHistory.timestamp := now |} ]) d1,
               None)
          end
      | _ => (d1, Some PGRST116)
      end
  | _ => (d, Some PGRST116)
  end.

(** [addGameLog]. *)
Definition addGameLog (gameId : uuid) (playerId : option uuid) (type : string)
  (message : log_message) (d : db) : db * option error :=
  if negb (game_exists gameId d) then (d, Some foreign_key_violation)
  else if match playerId with
          | Some p => negb (player_exists p d)
          | None => false
          end then (d, Some foreign_key_violation)
  else
    (with_game_logs
       (game_logs d ++
          [ {| GameLogs.game_id := gameId; GameLogs.player_id := playerId;
               GameLogs.log_type := type; GameLogs.message := message |} ]) d,
     None).

(** The frontend [Player] and [TelegramUser] interfaces. *)
Record TelegramUser : Type := {
  tg_id : Z;
  tg_first_name : option string;
  tg_last_name : option string;
  tg_username : option string;
  tg_photo_url : option string
}.

Module Player.
Record t : Type := {
  id : option uuid;
  name : string;
  balance : Q;
  color : option string;
  gifts : list string;
  giftValue : Q;
  telegramUser : option TelegramUser
}.
End Player.

(** [.order("timestamp", { ascending: false })]: insertion of a row in
    front of the first row that is not newer. *)
Fixpoint insert_by_timestamp (r : MatchHistory.Row) (l : list MatchHistory.Row)
  : list MatchHistory.Row :=
  match l with
  | [] => [r]
  | x :: l' =>
      if MatchHistory.timestamp x <? MatchHistory.timestamp r
      then r :: x :: l'
      else x :: insert_by_timestamp r l'
  end.

Definition order_by_timestamp_desc (l : list MatchHistory.Row) : list MatchHistory.Row :=
  fold_left (fun acc r => insert_by_timestamp r acc) l [].

(** One formatted element of [getMatchHistory]'s result: the row, with
    [winner] and [players] as the query and the mapping compute them. *)
Module HistoryRead.
Record t : Type := {
  entry : MatchHistory.Row;
  winner : Player.t;
  players : list Player.t
}.
End HistoryRead.

(** [getMatchHistory].  The select embeds [winner:players(...)] and, under
    the alias [players_snapshot], the resource [game_participants], each
    row with its [players] row.  PostgREST answers a request that embeds
    a resource it finds no relationship for with the error PGRST200, and
    the helper throws it.  With a relationship the key [players_snapshot]
    of a result row would be the embedded list, not the stored column,
    and the mapping below would run on it; the schema declares none, and
    the rows of the archived game stand for that list here. *)
Definition getMatchHistory (limit : nat) (d : db) : result (list HistoryRead.t) :=
  if negb (relationship "match_history" "players"
           && relationship "match_history" "game_participants"
           && relationship "game_participants" "players")
  then Raise PGRST200
  else
  let data := firstn limit (order_by_timestamp_desc (match_history d)) in
  Ok (map (fun m =>
         let winner_row := players_of (MatchHistory.winner_player_id m) d in
         let players_snapshot :=
           map (snapshot_of d) (participants_of (MatchHistory.game_id m) d) in
         {| HistoryRead.entry :=
              {| MatchHistory.game_id := MatchHistory.game_id m;
                 MatchHistory.roll_number := MatchHistory.roll_number m;
                 MatchHistory.winner_player_id := MatchHistory.winner_player_id m;
                 MatchHistory.winner_name := MatchHistory.winner_name m;
                 MatchHistory.winner_chance := MatchHistory.winner_chance m;
                 MatchHistory.total_pot := MatchHistory.total_pot m;
                 MatchHistory.players_snapshot := players_snapshot;
                 MatchHistory.timestamp := MatchHistory.timestamp m |};
            HistoryRead.winner :=
              {| Player.id := option_map Players.id winner_row;
                 Player.name :=
                   match winner_row with
                   | Some w => or_default (Players.username w)
                                 (or_default (Players.first_name w) "Unknown")
                   | None => "Unknown"
                   end;
                 Player.balance := 0%Q;
                 Player.color := Some "#000000"%string;
                 Player.gifts := [];
                 Player.giftValue := 0%Q;
                 Player.telegramUser :=
                   option_map
                     (fun w =>
                        {| tg_id := Players.id w;
                           tg_username := truthy (Players.username w);
                           tg_first_name := truthy (Players.first_name w);
                           tg_last_name := truthy (Players.last_name w);
                           tg_photo_url := truthy (Players.photo_url w) |})
                     winner_row |};
            HistoryRead.players :=
              map (fun p =>
                     {| Player.id := Some (snap_player_id p);
                        Player.name := snap_player_name p;
                        Player.balance := 0%Q;
                        Player.color := snap_color p;
                        Player.gifts := [];
                        Player.giftValue := snap_gift_value p;
                        Player.telegramUser :=
                          option_map
                            (fun w =>
                               {| tg_id := e_telegram_user_id w;
                                  tg_username := truthy (e_username w);
                                  tg_first_name := truthy (e_first_name w);
                                  tg_last_name := truthy (e_last_name w);
                                  tg_photo_url := truthy (e_photo_url w) |})
                            (snap_telegram_user_id p) |})
                  players_snapshot |})
      data).

(** ** src/hooks/useGameDatabase.ts *)

Definition hex_digit (n : Z) : string :=
  match n with
  | 0 => "0" | 1 => "1" | 2 => "2" | 3 => "3" | 4 => "4" | 5 => "5"
  | 6 => "6" | 7 => "7" | 8 => "8" | 9 => "9" | 10 => "a" | 11 => "b"
  | 12 => "c" | 13 => "d" | 14 => "e" | _ => "f"
  end%string.

(** [player_id.substring(0, 4)]: the first four hexadecimal digits of
    the 128-bit identifier. *)
Definition substring_0_4 (u : uuid) : string :=
  let top := Z.shiftr u 112 in
  (hex_digit (Z.land (Z.shiftr top 12) 15) ++
   hex_digit (Z.land (Z.shiftr top 8) 15) ++
   hex_digit (Z.land (Z.shiftr top 4) 15) ++
   hex_digit (Z.land top 15))%string.

(** The mapping of [loadGameParticipants]; the loaded list becomes
    [dbPlayers]. *)
Definition formatPlayer (row : GameParticipants.Row * option Players.Row) : Player.t :=
  let '(p, pl) := row in
  {| Player.id := Some (GameParticipants.player_id p);
     Player.name :=
       or_default (Some (GameParticipants.player_name p))
         (or_default (match pl with Some w => Players.username w | None => None end)
            (or_default (match pl with Some w => Players.first_name w | None => None end)
               ("Player " ++ substring_0_4 (GameParticipants.player_id p))));
     Player.balance := 0%Q;
     Player.color := Some (or_default (GameParticipants.color p) "#CCCCCC");
     Player.gifts := GameParticipants.gifts_array p;
     Player.giftValue := GameParticipants.gift_value p;
     Player.telegramUser :=
       option_map
         (fun w =>
            {| tg_id := Players.telegram_user_id w;
               tg_first_name := Some (or_default (Players.first_name w) "");
               tg_last_name := None;
               tg_username := truthy (Players.username w);
               tg_photo_url := truthy (Players.photo_url w) |}) pl |}.

Definition loadGameParticipants (gameId : uuid) (d : db) : list Player.t :=
  map formatPlayer (getGameParticipants gameId d).

(** ** src/app/components/WheelGame.tsx *)

Module WheelGame.

(** The entry [spinWheel] adds to the local [matchHistory]. *)
Module MatchHistoryEntry.
Record t : Type := {
  rollNumber : Z;
  timestamp : timestamptz;
  players : list Player.t;
  winner : Player.t;
  totalPot : Q;
  winnerChance : option Q
}.
End MatchHistoryEntry.

(** The component state [spinWheel] reads. *)
Record state : Type := {
  dbPlayers : list Player.t;
  players : list Player.t;
  isSpinning : bool;
  currentGameId : option uuid;
  currentPlayer : option Players.Row;
  rollNumber : Z
}.

Definition playerValue (player : Player.t) : Q :=
  (Player.balance player + Player.giftValue player)%Q.

(** [activePlayers.reduce((sum, player) => sum + player.balance +
    player.giftValue, 0)]. *)
Definition totalValue (activePlayers : list Player.t) : Q :=
  fold_left (fun sum player => (sum + Player.balance player + Player.giftValue player)%Q)
            activePlayers 0%Q.

Definition totalGiftValue (activePlayers : list Player.t) : Q :=
  fold_left (fun sum player => (sum + Player.giftValue player)%Q) activePlayers 0%Q.

(** The [for ... of] loop with its [break]: [None] is a [selectedWinner]
    left [null].  The sums are exact here; [Doubles] below is the same
    loop in binary64, where a running sum can differ from this one. *)
Fixpoint select_loop (randomValue currentSum : Q) (activePlayers : list Player.t)
  : option Player.t :=
  match activePlayers with
  | [] => None
  | player :: rest =>
      let currentSum := (currentSum + playerValue player)%Q in
      if Qle_bool randomValue currentSum then Some player
      else select_loop randomValue currentSum rest
  end.

(** [random] is the value of [Math.random()], in [[0, 1)]. *)
Definition selectWinner (random : Q) (activePlayers : list Player.t) : option Player.t :=
  let randomValue := (random * totalValue activePlayers)%Q in
  select_loop randomValue 0%Q activePlayers.

Definition activePlayers (st : state) : list Player.t :=
  match dbPlayers st with
  | [] => players st
  | _ :: _ => dbPlayers st
  end.

(** [(playerValue / totalValue) * 100]; [None] when the quotient is not a
    finite number. *)
Definition winnerChance_of (selected : Player.t) (active : list Player.t) : option Q :=
  if Qeq_bool (totalValue active) 0 then None
  else Some ((playerValue selected / totalValue active) * 100)%Q.

Record outcome : Type := {
  selectedWinner : option Player.t;
  store : db;
  matchEntry : option MatchHistoryEntry.t
}.

(** [spinWheel], from its guards to the end of the timeout callback
    (the allocation of the next round apart).  The hook's [completeGame]
    and [addGameLog] catch what the helpers throw, so only the store
    they leave is kept.  [None]: a guard returned before the draw. *)
Definition spinWheel (random : Q) (now : timestamptz) (st : state) (d : db)
  : option outcome :=
  let active := activePlayers st in
  if (List.length active <? 2)%nat then None
  else if isSpinning st then None
  else
    let d1 :=
      match currentGameId st with
      | Some g => fst (addGameLog g None "spin" wheel_spinning d)
      | None => d
      end in
    match selectWinner random active with
    | None => Some {| selectedWinner := None; store := d1; matchEntry := None |}
    | Some selected =>
        let chance := winnerChance_of selected active in
        let d2 :=
          match currentGameId st, currentPlayer st with
          | Some g, Some me =>
              let d' := fst (completeGame now g (Players.id me) chance
                               (totalGiftValue active) d1) in
              fst (addGameLog g (Some (Players.id me)) "winner"
                     (winner_announced (Player.name selected) (totalGiftValue active)) d')
          | _, _ => d1
          end in
        Some {| selectedWinner := Some selected;
                store := d2;
                matchEntry :=
                  Some {| MatchHistoryEntry.rollNumber := rollNumber st;
                          MatchHistoryEntry.timestamp := now;
                          MatchHistoryEntry.players := active;
                          MatchHistoryEntry.winner := selected;
                          MatchHistoryEntry.totalPot := totalGiftValue active;
                          MatchHistoryEntry.winnerChance := chance |} |}
    end.

End WheelGame.

(** ** The winner selection in binary64

    The [number] arithmetic of [addPlayer] and of the selection loop of
    [spinWheel] in IEEE 754 binary64, operation by operation and in the
    order JavaScript evaluates it: [sum + player.balance +
    player.giftValue] is [(sum + balance) + giftValue], and [currentSum
    += playerValue] adds [balance + giftValue] to the running sum. *)
Module Doubles.

Record player : Set := {
  balance : float;
  giftValue : float
}.

(** The player [addPlayer] creates: [balance] is the parsed integer
    ([1..10000]) and [giftValue] is [Math.random() * 0.5 + 0.1]. *)
Definition addPlayer (balance : Z) (random : float) : player :=
  {| balance := PrimFloat.of_uint63 (Uint63.of_Z balance);
     giftValue := (random * 0.5 + 0x1.999999999999ap-4)%float |}.

Definition totalValue (activePlayers : list player) : float :=
  fold_left (fun sum player => ((sum + balance player) + giftValue player)%float)
            activePlayers 0%float.

Fixpoint select_loop (randomValue currentSum : float) (activePlayers : list player)
  : option player :=
  match activePlayers with
  | [] => None
  | player :: rest =>
      let playerValue := (balance player + giftValue player)%float in
      let currentSum := (currentSum + playerValue)%float in
      if (randomValue <=? currentSum)%float then Some player
      else select_loop randomValue currentSum rest
  end.

(** [random] is the value of [Math.random()]. *)
Definition selectWinner (random : float) (activePlayers : list player) : option player :=
  let randomValue := (random * totalValue activePlayers)%float in
  select_loop randomValue 0%float activePlayers.

End Doubles.

(** ** Reading the store *)

Definition get_game (p_game_id : uuid) (d : db) : option Games.Row :=
  find (fun g => Games.id g =? p_game_id) (games d).

Definition participant_of (p_game_id p_player_id : uuid) (d : db)
  : option GameParticipants.Row :=
  find (is_participant p_game_id p_player_id) (game_participants d).

Definition history_of (gameId : uuid) (d : db) : list MatchHistory.Row :=
  filter (fun m => MatchHistory.game_id m =? gameId) (match_history d).

Definition is_ok {A : Type} (r : result A) : bool :=
  match r with Ok _ => true | Raise _ => false end.

Definition fmap {A B : Type} (f : A -> B) (r : result A) : result B :=
  match r with Ok a => Ok (f a) | Raise e => Raise e end.

(** The store an operation leaves: a raised error rolls it back. *)
Definition commit (d : db) (r : result db) : db :=
  match r with Ok d' => d' | Raise _ => d end.




(** The status column overwritten, session by session. *)
Definition relabel (f : uuid -> string) (d : db) : db :=
  with_games (map (fun g => Games.set_status (f (Games.id g)) g) (games d)) d.

(** ** The draw as the specification words it

    The participants of the session ordered by join position (the
    [.order("position", { ascending: true })] of the other version of the
    hook), then the same walk. *)

Definition position_le (a b : GameParticipants.Row * option Players.Row) : bool :=
  match GameParticipants.position (fst a), GameParticipants.position (fst b) with
  | Some x, Some y => x <=? y
  | Some _, None => true      (* NULLS LAST *)
  | None, Some _ => false
  | None, None => true
  end.

Fixpoint insert_by_position (r : GameParticipants.Row * option Players.Row)
  (l : list (GameParticipants.Row * option Players.Row)) :=
  match l with
  | [] => [r]
  | x :: l' => if position_le x r then x :: insert_by_position r l' else r :: x :: l'
  end.

Definition order_by_position (l : list (GameParticipants.Row * option Players.Row)) :=
  fold_left (fun acc r => insert_by_position r acc) l [].

Definition spec_loadGameParticipants (gameId : uuid) (d : db) : list Player.t :=
  map formatPlayer (order_by_position (getGameParticipants gameId d)).

(** ** Sample stores

    Stores are written out row by row: states of the database that
    satisfy the constraints of the schema. *)

Definition alice : Players.Row :=
  {| Players.id := 1; Players.telegram_user_id := 1001;
     Players.username := Some "alice"%string; Players.first_name := Some "Alice"%string;
     Players.last_name := None; Players.photo_url := None |}.

Definition bob : Players.Row :=
  {| Players.id := 2; Players.telegram_user_id := 1002;
     Players.username := Some "bob"%string; Players.first_name := Some "Bob"%string;
     Players.last_name := None; Players.photo_url := None |}.

Definition carol : Players.Row :=
  {| Players.id := 3; Players.telegram_user_id := 1003;
     Players.username := Some "carol"%string; Players.first_name := Some "Carol"%string;
     Players.last_name := None; Players.photo_url := None |}.

Definition erin : Players.Row :=
  {| Players.id := 4; Players.telegram_user_id := 1004;
     Players.username := Some "erin"%string; Players.first_name := Some "Erin"%string;
     Players.last_name := None; Players.photo_url := None |}.

(** One gift type worth 10 a piece. *)
Definition star : Gifts.Row :=
  {| Gifts.id := 50; Gifts.emoji := "*"; Gifts.name := "Epic Star";
     Gifts.base_value := 10%Q |}.

Definition wallet (p : uuid) (n : Z) : PlayerGifts.Row :=
  {| PlayerGifts.player_id := p; PlayerGifts.gift_id := 50; PlayerGifts.quantity := n |}.

Definition round_1 : Games.Row :=
  {| Games.id := 100; Games.roll_number := 8343; Games.status := "waiting";
     Games.total_pot_balance := 0%Q; Games.total_players := 0;
     Games.winner_player_id := None; Games.winner_chance := None;
     Games.countdown_ends_at := None; Games.completed_at := None |}.

(** An open session nobody has joined; every player holds ten stars. *)
Definition empty_round : db :=
  {| players := [alice; bob; carol; erin];
     games := [round_1];
     game_participants := [];
     gifts := [star];
     player_gifts := [wallet 1 10; wallet 2 10; wallet 3 10; wallet 4 10];
     game_participant_gifts := [];
     game_logs := [];
     match_history := [];
     uuid_supply := 1000 |}.

Definition stars (n : Z) : list gift_selection :=
  [ {| giftId := 50; quantity := n; totalValue := inject_Z (10 * n) |} ].


(** The rows of a player who has staked [n] stars in session 100: the
    participant row, the ledger row and the log line. *)
Definition participant (i : uuid) (p : Players.Row) (n : Z) (chance : Q) (pos : Z)
  : GameParticipants.Row :=
  {| GameParticipants.id := i;
     GameParticipants.game_id := 100;
     GameParticipants.player_id := Players.id p;
     GameParticipants.player_name := or_default (Players.username p) "";
     GameParticipants.gift_value := inject_Z (10 * n);
     GameParticipants.chance_percentage := chance;
     GameParticipants.color := Some "#FF6B6B"%string;
     GameParticipants.position := Some pos;
     GameParticipants.gifts_array := repeat "*"%string (Z.to_nat n) |}.

Definition ledger (i : uuid) (n : Z) (t : timestamptz) : GameParticipantGifts.Row :=
  {| GameParticipantGifts.game_participant_id := i;
     GameParticipantGifts.gift_id := 50;
     GameParticipantGifts.quantity := n;
     GameParticipantGifts.total_value := inject_Z (10 * n);
     GameParticipantGifts.added_at := t |}.

Definition join_line (p : Players.Row) (n : Z) : GameLogs.Row :=
  {| GameLogs.game_id := 100;
     GameLogs.player_id := Some (Players.id p);
     GameLogs.log_type := "join";
     GameLogs.message :=
       added_gifts (or_default (Players.username p) "") (inject_Z (10 * n)) |}.

(** Alice with 3 stars and Bob with 7; the countdown ends at 80. *)
Definition two_player_round : db :=
  {| players := [alice; bob; carol; erin];
     games := [Games.set_countdown_ends_at (Some 80) (Games.set_totals 100 2 round_1)];
     game_participants := [participant 1000 alice 3 30 0; participant 1001 bob 7 70 1];
     gifts := [star];
     player_gifts := [wallet 1 7; wallet 2 3; wallet 3 10; wallet 4 10];
     game_participant_gifts := [ledger 1000 3 10; ledger 1001 7 20];
     game_logs := [join_line alice 3; join_line bob 7];
     match_history := [];
     uuid_supply := 1002 |}.

(** Alice, Bob, Erin and Carol in the order of their rows; Carol's
    client had counted one participant when it computed her position. *)
Definition stale_position_round : db :=
  {| players := [alice; bob; carol; erin];
     games := [Games.set_countdown_ends_at (Some 80) (Games.set_totals 100 4 round_1)];
     game_participants :=
       [participant 1000 alice 1 10 0; participant 1001 bob 2 20 1;
        participant 1002 erin 3 30 2; participant 1003 carol 4 40 1];
     gifts := [star];
     player_gifts := [wallet 1 9; wallet 2 8; wallet 3 6; wallet 4 7];
     game_participant_gifts :=
       [ledger 1000 1 10; ledger 1001 2 20; ledger 1002 3 30; ledger 1003 4 40];
     game_logs := [join_line alice 1; join_line bob 2; join_line erin 3; join_line carol 4];
     match_history := [];
     uuid_supply := 1004 |}.

(** Alice and Bob hold participant rows, and the countdown has not been
    started. *)
Definition quorum_round : db :=
  with_games [Games.set_totals 100 2 round_1] two_player_round.

(** Alice, Bob and Carol with one star each; the chances have not been
    computed. *)
Definition three_way_round : db :=
  {| players := [alice; bob; carol; erin];
     games := [Games.set_totals 30 3 round_1];
     game_participants :=
       [participant 1000 alice 1 0 0; participant 1001 bob 1 0 1;
        participant 1002 carol 1 0 2];
     gifts := [star];
     player_gifts := [wallet 1 9; wallet 2 9; wallet 3 9; wallet 4 10];
     game_participant_gifts := [ledger 1000 1 10; ledger 1001 1 20; ledger 1002 1 30];
     game_logs := [join_line alice 1; join_line bob 1; join_line carol 1];
     match_history := [];
     uuid_supply := 1003 |}.

(** The client of Alice when the countdown of [two_player_round] ends. *)
Definition alice_client : WheelGame.state :=
  {| WheelGame.dbPlayers := loadGameParticipants 100 two_player_round;
     WheelGame.players := [];
     WheelGame.isSpinning := false;
     WheelGame.currentGameId := Some 100;
     WheelGame.currentPlayer := Some alice;
     WheelGame.rollNumber := 8343 |}.

(** Three players added by [addPlayer] with the balances 9, 7 and 7 and
    the values 0.75, 0 and 0.5 of [Math.random()]. *)
Definition offline_players : list Doubles.player :=
  [ Doubles.addPlayer 9 0.75%float;
    Doubles.addPlayer 7 0%float;
    Doubles.addPlayer 7 0.5%float ].

(** A player loaded from the database, in binary64: [balance] is 0 and
    [giftValue] the whole number of the sample stores. *)
Definition loaded_player (giftValue : Z) : Doubles.player :=
  {| Doubles.balance := 0%float;
     Doubles.giftValue := PrimFloat.of_uint63 (Uint63.of_Z giftValue) |}.

(** The largest value below 1 that is a multiple of [2 ^ -52]. *)
Definition largest_random : float := 0x1.ffffffffffffep-1%float.

(** The countdown deadline of a session ([None]: not set). *)
Definition deadline (p_game_id : uuid) (d : db) : option timestamptz :=
  match get_game p_game_id d with
  | Some g => Games.countdown_ends_at g
  | None => None
  end.

Definition participant_count (p_game_id : uuid) (d : db) : Z :=
  Z.of_nat (List.length (participants_of p_game_id d)).

(** The claim of pot and chances, as the specification words it: the
    recorded pot is the sum of the contribution values, every
    win-probability is 100 times the value divided by the pot, or 0 when
    the pot is 0, and with a positive pot the probabilities add up to
    100. *)
Definition spec_pot_and_chances (p_game_id : uuid) (d : db) : Prop :=
  exists session,
    get_game p_game_id d = Some session /\
    (Games.total_pot_balance session == sum_gift_value (participants_of p_game_id d))%Q /\
    (forall gp, In gp (participants_of p_game_id d) ->
       GameParticipants.chance_percentage gp
       == if Qeq_bool (Games.total_pot_balance session) 0 then 0
          else 100 * GameParticipants.gift_value gp / Games.total_pot_balance session)%Q /\
    ((0 < Games.total_pot_balance session)%Q ->
     (SUM (map GameParticipants.chance_percentage (participants_of p_game_id d))
      == 100)%Q).

(** The bound on the rounding of one win-probability: half a unit of
    the 18th decimal place. *)
Definition chance_tolerance : Q := 1 # 2000000000000000000.


(** The claim of the closed session, as the specification words it: a
    submission to a session that is neither [waiting] nor
    [counting_down] fails. *)
Definition session_open (g : uuid) (d : db) : bool :=
  match get_game g d with
  | Some s => (Games.status s =? "waiting")%string
              || (Games.status s =? "counting_down")%string
  | None => false
  end.

Definition spec_rejects_closed now g p sels col pos name d : Prop :=
  session_open g d = false ->
  is_ok (add_gifts_to_game now g p sels col pos name d) = false.

(** [two_player_round] completed at time 90, ten seconds after its
    deadline, with Bob as winner. *)
Definition completed_round : db :=
  fst (completeGame 90 100 2 (Some 70%Q) 100%Q two_player_round).

(** Two resolutions of one session, as two expiry timers trigger them. *)
Definition resolve_twice (now1 now2 : timestamptz) (gameId winnerPlayerId : uuid)
  (winnerChance : option Q) (totalPot : Q) (d : db) : db :=
  fst (completeGame now2 gameId winnerPlayerId winnerChance totalPot
         (fst (completeGame now1 gameId winnerPlayerId winnerChance totalPot d))).

(** The claim of idempotent resolution, as the specification words it:
    two resolutions leave one more history entry of the session, not two. *)
Definition spec_resolution_idempotent now1 now2 gameId winnerPlayerId winnerChance
  totalPot d : Prop :=
  List.length (history_of gameId
                 (resolve_twice now1 now2 gameId winnerPlayerId winnerChance totalPot d))
  = S (List.length (history_of gameId d)).

Definition game_rows (gameId : uuid) (d : db) : list Games.Row :=
  filter (fun g => Games.id g =? gameId) (games d).

(** After the archival of [completed_round], Alice touches the session
    without a selection. *)
Definition alice_touches_after_archival : db :=
  commit completed_round
    (add_gifts_to_game 500 100 1 [] "#FF6B6B" 0 "alice" completed_round).

(** ** Further reading of the store *)

(** The primary key of [game_participants], with the identifier supply
    ahead of every identifier in use. *)
Definition participant_ids_ok (d : db) : Prop :=
  NoDup (map GameParticipants.id (game_participants d)) /\
  Forall (fun r => GameParticipants.id r < uuid_supply d) (game_participants d).


Definition other_games (p_game_id : uuid) (d : db) : list Games.Row :=
  filter (fun g => negb (Games.id g =? p_game_id)) (games d).

(** ** src/lib/supabase.ts, the other helpers

    The tables carry [created_at ... DEFAULT now()] and no helper sets
    it: the rows of a table are in [created_at] order, and [.order(
    "created_at", { ascending: false })] is the table read backwards. *)

(** What a helper throws besides the errors above. *)
Inductive thrown : Set :=
| unique_violation           (* SQLSTATE 23505 *)
| raised (e : error).

(** [getPlayerByTelegramId]: [.single()] fails with PGRST116 on no row
    and on several rows, and the helper lets that code pass with
    [data = null]. *)
Definition getPlayerByTelegramId (telegramUserId : Z) (d : db) : option Players.Row :=
  match filter (fun p => Players.telegram_user_id p =? telegramUserId) (players d) with
  | [p] => Some p
  | _ => None
  end.

(** [createPlayer]: an insert under [telegram_user_id ... UNIQUE]. *)
Definition createPlayer (telegramUserId : Z)
  (username firstName lastName photoUrl : option string) (d : db)
  : db * (thrown + Players.Row) :=
  if existsb (fun p => Players.telegram_user_id p =? telegramUserId) (players d)
  then (d, inl unique_violation)
  else
    let row :=
      {| Players.id := uuid_supply d;
         Players.telegram_user_id := telegramUserId;
         Players.username := username;
         Players.first_name := firstName;
         Players.last_name := lastName;
         Players.photo_url := photoUrl |} in
    (with_uuid_supply (uuid_supply d + 1) (with_players (players d ++ [row]) d),
     inr row).

Definition is_waiting (g : Games.Row) : bool :=
  (Games.status g =? "waiting")%string.

Definition waiting_games (d : db) : list Games.Row :=
  filter is_waiting (games d).

(** [getCurrentGame]: the latest waiting session with its participants,
    or a new waiting session when there is none and [rollNumber > 0]
    (an insert under [roll_number ... UNIQUE]), or [null]. *)
Definition getCurrentGame (rollNumber : Z) (d : db)
  : db * (thrown + option (Games.Row * list GameParticipants.Row)) :=
  match rev (waiting_games d) with
  | activeGame :: _ =>
      (d, inr (Some (activeGame, participants_of (Games.id activeGame) d)))
  | [] =>
      if 0 <? rollNumber then
        if existsb (fun g => Games.roll_number g =? rollNumber) (games d)
        then (d, inl unique_violation)
        else
          let newGame :=
            {| Games.id := uuid_supply d;
               Games.roll_number := rollNumber;
               Games.status := "waiting";
               Games.total_pot_balance := 0%Q;
               Games.total_players := 0;
               Games.winner_player_id := None;
               Games.winner_chance := None;
               Games.countdown_ends_at := None;
               Games.completed_at := None |} in
          (with_uuid_supply (uuid_supply d + 1) (with_games (games d ++ [newGame]) d),
           inr (Some (newGame, participants_of (uuid_supply d) d)))
      else (d, inr None)
  end.

(** [getGameLogs]: the 20 latest log lines of the session, latest first. *)
Definition getGameLogs (gameId : uuid) (d : db) : list GameLogs.Row :=
  firstn 20 (rev (filter (fun l => GameLogs.game_id l =? gameId) (game_logs d))).

(** [initializePlayer] of [src/hooks/useGameDatabase.ts]: look the player
    up, create it when the lookup returns nothing, and pass the row to
    [setCurrentPlayer]; what the helpers throw is caught before that
    call.  The second component is the argument of [setCurrentPlayer]
    ([None]: the call is not reached). *)
Definition hook_initializePlayer (tg : Z)
  (username first_name last_name photo_url : option string) (d : db)
  : db * option Players.Row :=
  match getPlayerByTelegramId tg d with
  | Some player => (d, Some player)
  | None =>
      match createPlayer tg username first_name last_name photo_url d with
      | (d', inr player) => (d', Some player)
      | (d', inl _) => (d', None)
      end
  end.

Definition telegram_ids (d : db) : list Z :=
  map Players.telegram_user_id (players d).

(** The identifiers of the sessions lie behind the identifier supply. *)
Definition game_ids_ok (d : db) : Prop :=
  Forall (fun g => Games.id g < uuid_supply d) (games d).

Definition returned_game (r : thrown + option (Games.Row * list GameParticipants.Row))
  : option Games.Row :=
  match r with
  | inr (Some (game, _)) => Some game
  | _ => None
  end.

(** ** src/app/components/WheelGame.tsx, the gift dialog, the local log
    and the countdown *)

(** An element of [selectedGifts]. *)
Module Selected.
Record t : Type := {
  id : uuid;
  quantity : Z
}.
End Selected.

Definition has_id (giftId : uuid) (g : Selected.t) : bool :=
  Selected.id g =? giftId.

(** [handleGiftSelection], as the update of [selectedGifts]. *)
Definition handleGiftSelection (giftId : uuid) (quantity : Z) (prev : list Selected.t)
  : list Selected.t :=
  match find (has_id giftId) prev with
  | Some existing =>
      if quantity =? 0 then filter (fun g => negb (has_id giftId g)) prev
      else map (fun g => if has_id giftId g
                         then {| Selected.id := Selected.id g;
                                 Selected.quantity := quantity |}
                         else g) prev
  | None =>
      if 0 <? quantity
      then prev ++ [ {| Selected.id := giftId; Selected.quantity := quantity |} ]
      else prev
  end.

(** [addToLog], as the update of [gameLog]: the new line in front of the
    first 19 of the earlier ones. *)
Definition addToLog {A : Type} (newLog : A) (prev : list A) : list A :=
  newLog :: firstn 19 prev.

(** The tick of the countdown interval in the hook:
    [prev !== null && prev > 0 ? prev - 1 : 0]. *)
Definition tick (prev : option Z) : option Z :=
  match prev with
  | Some n => if 0 <? n then Some (n - 1) else Some 0
  | None => Some 0
  end.

Fixpoint ticks (k : nat) (c : option Z) : option Z :=
  match k with
  | O => c
  | S k' => ticks k' (tick c)
  end.

(** The condition of the auto-spin effect. *)
Definition auto_spin (gameCountdown : option Z) (st : WheelGame.state) : bool :=
  match gameCountdown with
  | Some 0 => negb (WheelGame.isSpinning st)
              && (2 <=? List.length (WheelGame.activePlayers st))%nat
  | _ => false
  end.

(** [UPDATE game_participants SET gift_value = ..., gifts_array = ...
    WHERE id = ...] with the values read from the row [gp] itself. *)
Definition rewrite_participant (gp : GameParticipants.Row) (d : db) : db :=
  with_game_participants
    (update_where (fun r => GameParticipants.id r =? GameParticipants.id gp)
       (GameParticipants.set_gifts (GameParticipants.gift_value gp)
          (GameParticipants.gifts_array gp))
       (game_participants d)) d.

(** A column of the player row a lookup returned ([NULL]: no row). *)
Definition stored (column : Players.Row -> option string) (p : option Players.Row)
  : option string :=
  match p with
  | Some row => column row
  | None => None
  end.

(** The store a successful [add_gifts_to_game] leaves: the submission of
    no selection by the player whose row in the session is [gp]. *)
Definition settled (now : timestamptz) (p_game_id p_player_id : uuid)
  (p_player_name : string) (gp : GameParticipants.Row) (d : db) : db :=
  let d3 := rewrite_participant gp d in
  let d4 :=
    with_games
      (update_where (fun g => Games.id g =? p_game_id)
         (Games.set_totals (sum_gift_value (participants_of p_game_id d3))
            (Z.of_nat (List.length (participants_of p_game_id d3))))
         (games d3))
      (with_game_participants
         (update_where (in_game p_game_id)
            (fun r => GameParticipants.set_chance_percentage
                        (chance_of (sum_gift_value (participants_of p_game_id d3)) r) r)
            (game_participants d3)) d3) in
  let d5 := if 2 <=? Z.of_nat (List.length (participants_of p_game_id d4))
            then start_countdown now p_game_id d4 else d4 in
  with_game_logs
    (game_logs d5 ++
       [ {| GameLogs.game_id := p_game_id;
            GameLogs.player_id := Some p_player_id;
            GameLogs.log_type := "join";
            GameLogs.message :=
              added_gifts p_player_name (GameParticipants.gift_value gp) |} ])
    d5.

(** ** Further sample stores *)

(** [two_player_round] with the totals of its session row not yet
    computed. *)
Definition unsettled_round : db :=
  with_games [round_1] two_player_round.

Definition recalculated_round : db :=
  commit unsettled_round (recalculate_game_chances 100 unsettled_round).

(** Alice touches [quorum_round] at time 20 and [three_way_round] at
    time 40, without a selection. *)
Definition alice_touches_quorum : db :=
  commit quorum_round
    (add_gifts_to_game 20 100 1 [] "#FF6B6B" 0 "alice" quorum_round).

Definition alice_touches_three_way : db :=
  commit three_way_round
    (add_gifts_to_game 40 100 1 [] "#FF6B6B" 0 "alice" three_way_round).

(** Two player rows of one Telegram identifier. *)
Definition alice_twice : db :=
  with_players [alice; alice] empty_round.

(** Bob opens the application again, without a user name in his
    Telegram profile. *)
Definition bob_returns : db :=
  initializePlayer 1002 None (Some "Robert"%string) None None two_player_round.

(** Three stars selected in the dialog. *)
Definition three_stars : list Selected.t :=
  [ {| Selected.id := 50; Selected.quantity := 3 |} ].

(** A log line written to [two_player_round]. *)
Definition line_logged : db :=
  fst (addGameLog 100 (Some 1) "spin" wheel_spinning two_player_round).

(** * Properties *)

Local Open Scope Q_scope.

(** ** The winner selection of [spinWheel] *)

Lemma SUM_nonneg (vs : list Q) : Forall (fun v => 0 <= v) vs -> 0 <= SUM vs.
Proof.
  induction 1 as [|v vs Hv _ IH]; simpl.
  - apply Qle_refl.
  - lra.
Qed.

(** What the walk returns: the first participant, in list order, whose
    running sum reaches the draw. *)
Lemma select_loop_first (l : list Player.t) (r c : Q) (w : Player.t) :
  WheelGame.select_loop r c l = Some w ->
  exists pre post,
    l = pre ++ w :: post /\
    r <= c + SUM (map WheelGame.playerValue (pre ++ [w])) /\
    forall k, (k < List.length pre)%nat ->
              ~ r <= c + SUM (map WheelGame.playerValue (firstn (S k) pre)).
Proof.
  revert c; induction l as [|p l IH]; intros c H; simpl in H; [discriminate|].
  destruct (Qle_bool r (c + WheelGame.playerValue p)) eqn:E.
  - injection H as <-. exists [], l. repeat split.
    + apply Qle_bool_iff in E. simpl. lra.
    + simpl; intros k Hk; lia.
  - apply IH in H as (pre & post & -> & Hle & Hbefore).
    exists (p :: pre), post. repeat split.
    + simpl in *. lra.
    + intros [|k] Hk; simpl in *.
      * intro Hc. assert (Qle_bool r (c + WheelGame.playerValue p) = true)
          by (apply Qle_bool_iff; lra). congruence.
      * intro Hc. apply (Hbefore k); [lia|]. lra.
Qed.

Lemma selectWinner_first (random : Q) (l : list Player.t) (w : Player.t) :
  WheelGame.selectWinner random l = Some w ->
  exists pre post,
    l = pre ++ w :: post /\
    random * WheelGame.totalValue l <= SUM (map WheelGame.playerValue (pre ++ [w])) /\
    forall k, (k < List.length pre)%nat ->
              ~ random * WheelGame.totalValue l
                <= SUM (map WheelGame.playerValue (firstn (S k) pre)).
Proof.
  unfold WheelGame.selectWinner. intro H.
  apply select_loop_first in H as (pre & post & E & Hle & Hb).
  exists pre, post. repeat split; auto.
  - lra.
  - intros k Hk Hc. apply (Hb k Hk). lra.
Qed.

(** The draw [Math.random() * totalValue] lies in [[0, totalValue)] when
    the pot is positive. *)
Lemma randomValue_range (random : Q) (l : list Player.t) :
  0 <= random -> random < 1 -> 0 < WheelGame.totalValue l ->
  0 <= random * WheelGame.totalValue l /\
  random * WheelGame.totalValue l < WheelGame.totalValue l.
Proof.
  intros H0 H1 Ht. split; nra.
Qed.

(** C10. The selection loop of [spinWheel] is meant to leave no draw
    without a winner.  In binary64 the total of [reduce] and the running
    sum of the loop round differently: for the three players [addPlayer]
    creates with the balances 9, 7, 7 and the random values 0.75, 0, 0.5,
    the total is 23.925000000000004 and the last running sum is 23.925;
    with [Math.random() = 1 - 2 ^ -52] the draw 23.925000000000001 lies
    below the total and above every running sum, and [selectedWinner]
    stays [null]. *)
Theorem selectedWinner_null_in_binary64 :
  (0 <=? largest_random)%float = true /\
  (largest_random <? 1)%float = true /\
  Forall (fun p => (0 <=? Doubles.balance p)%float = true /\
                   (0 <=? Doubles.giftValue p)%float = true) offline_players /\
  (largest_random * Doubles.totalValue offline_players
   <? Doubles.totalValue offline_players)%float = true /\
  Doubles.selectWinner largest_random offline_players = None.
Proof.
  repeat split; try (vm_compute; reflexivity).
  repeat constructor; vm_compute; reflexivity.
Qed.

(** C3. The draw is meant to walk the participants in join-position
    order.  [loadGameParticipants] queries without an order, so the walk
    follows storage order: in [stale_position_round] (positions 0, 1, 2, 1
    in storage order) the draw 1/2 of the pot of 100 stops at Erin
    (running sums 10, 30, 60) where the walk by position stops at Carol
    (running sums 10, 30, 70). *)
Theorem draw_follows_storage_order :
  map GameParticipants.position (participants_of 100 stale_position_round)
  = [Some 0; Some 1; Some 2; Some 1]%Z /\
  map Player.id (loadGameParticipants 100 stale_position_round)
  = [Some 1; Some 2; Some 4; Some 3]%Z /\
  map Player.id (spec_loadGameParticipants 100 stale_position_round)
  = [Some 1; Some 2; Some 3; Some 4]%Z /\
  option_map Player.id
    (WheelGame.selectWinner (1#2) (loadGameParticipants 100 stale_position_round))
  = Some (Some 4%Z) /\
  option_map Player.id
    (WheelGame.selectWinner (1#2) (spec_loadGameParticipants 100 stale_position_round))
  = Some (Some 3%Z).
Proof.
  vm_compute. repeat split.
Qed.

(** ** Completion of a round *)

(** C2. The winner written on completion is meant to be the participant
    the draw selected.  [spinWheel] passes [currentPlayer.id] to
    [completeGame]: on Alice's client, with the draw 9/10 of the pot, the
    walk selects Bob (70 of 100), and the session and the history entry
    name Alice as the winner, with Bob's 70 percent and the pot of 100. *)
Theorem spinWheel_records_current_player :
  exists o,
    WheelGame.spinWheel (9#10) 200 alice_client two_player_round = Some o /\
    option_map Player.id (WheelGame.selectedWinner o) = Some (Some 2%Z) /\
    option_map Games.winner_player_id (get_game 100 (WheelGame.store o))
    = Some (Some 1%Z) /\
    match history_of 100 (WheelGame.store o) with
    | [m] => MatchHistory.winner_player_id m = 1%Z /\
             MatchHistory.winner_name m = "alice"%string /\
             MatchHistory.winner_chance m == 70 /\
             MatchHistory.total_pot m == 100
    | _ => False
    end.
Proof.
  eexists. split; [vm_compute; reflexivity|].
  vm_compute. repeat split; congruence.
Qed.

(** ** The sample draws in binary64 *)

(** The sample draws of the two theorems above in binary64: the values of the sample stores
    are whole numbers, the sums are exact, and the loop stops at the same
    participants as in the exact reading (Erin in storage order, Carol
    by position, Bob for the draw 0.9 of 100). *)
Lemma sample_draws_in_binary64 :
  option_map Doubles.giftValue
    (Doubles.selectWinner 0.5 (map loaded_player [10; 20; 30; 40]%Z))
  = Some (Doubles.giftValue (loaded_player 30%Z)) /\
  option_map Doubles.giftValue
    (Doubles.selectWinner 0.5 (map loaded_player [10; 20; 40; 30]%Z))
  = Some (Doubles.giftValue (loaded_player 40%Z)) /\
  option_map Doubles.giftValue
    (Doubles.selectWinner 0x1.ccccccccccccdp-1 (map loaded_player [30; 70]%Z))
  = Some (Doubles.giftValue (loaded_player 70%Z)).
Proof.
  repeat split; vm_compute; reflexivity.
Qed.

(** ** Generic facts about the error monad and the row operations *)

Local Open Scope Z_scope.

Lemma bind_Ok {A B : Type} (m : result A) (k : A -> result B) (b : B) :
  bind m k = Ok b -> exists a, m = Ok a /\ k a = Ok b.
Proof.
  destruct m as [a|e]; simpl; intro H; [eauto | discriminate].
Qed.

Lemma int4_Ok (z n : Z) : int4 z = Ok n -> n = z.
Proof.
  unfold int4. destruct (_ && _); congruence.
Qed.

Lemma find_map_preserving {A : Type} (c : A -> bool) (h : A -> A) (l : list A) :
  (forall x, c (h x) = c x) ->
  find c (map h l) = option_map h (find c l).
Proof.
  intro Hc. induction l as [|a l IH]; simpl; [reflexivity|].
  rewrite Hc. destruct (c a); [reflexivity | exact IH].
Qed.

Lemma existsb_map_preserving {A : Type} (c : A -> bool) (h : A -> A) (l : list A) :
  (forall x, c (h x) = c x) ->
  existsb c (map h l) = existsb c l.
Proof.
  intro Hc. induction l as [|a l IH]; simpl; [reflexivity|].
  rewrite Hc, IH. reflexivity.
Qed.

Lemma filter_update_where_same {A : Type} (c : A -> bool) (set : A -> A) (l : list A) :
  (forall x, c (set x) = c x) ->
  filter c (update_where c set l) = map set (filter c l).
Proof.
  intro Hc. induction l as [|a l IH]; simpl; [reflexivity|].
  destruct (c a) eqn:E; simpl.
  - rewrite Hc, E, IH. reflexivity.
  - rewrite E, IH. reflexivity.
Qed.

Lemma find_app_none {A : Type} (c : A -> bool) (l l' : list A) :
  find c l = None -> find c (l ++ l') = find c l'.
Proof.
  induction l as [|a l IH]; simpl; [reflexivity|].
  destruct (c a); [discriminate | exact IH].
Qed.

Lemma existsb_find {A : Type} (c : A -> bool) (l : list A) :
  existsb c l = true -> exists a, find c l = Some a.
Proof.
  induction l as [|a l IH]; simpl; [discriminate|].
  destruct (c a); [eauto | exact IH].
Qed.

(** ** The rounding of a [numeric] quotient *)

Local Open Scope Q_scope.

Lemma NBASE_gt_1 : 1 < NBASE.
Proof. reflexivity. Qed.

Lemma Qle_bool_false (x y : Q) : Qle_bool x y = false -> y < x.
Proof.
  intro H. apply Qnot_le_lt. intro Hle. apply Qle_bool_iff in Hle. congruence.
Qed.

Lemma climb_spec (fuel : nat) (x : Q) (w : Z) :
  NBASE ^ w <= x -> x < NBASE ^ (w + Z.of_nat fuel + 1) ->
  NBASE ^ climb fuel x w <= x /\ x < NBASE ^ (climb fuel x w + 1).
Proof.
  revert w; induction fuel as [|f IH]; intros w Hlo Hhi.
  - simpl. split; [exact Hlo|]. replace (w + 1)%Z with (w + Z.of_nat 0 + 1)%Z by lia.
    exact Hhi.
  - cbn [climb]. destruct (Qle_bool (NBASE ^ (w + 1)) x) eqn:E.
    + apply IH; [apply Qle_bool_iff; exact E|].
      replace (w + 1 + Z.of_nat f + 1)%Z with (w + Z.of_nat (S f) + 1)%Z by lia.
      exact Hhi.
    + split; [exact Hlo | apply Qle_bool_false; exact E].
Qed.

Lemma descend_spec (fuel : nat) (x : Q) (w : Z) :
  x < NBASE ^ (w + 1) -> NBASE ^ (w - Z.of_nat fuel) <= x ->
  NBASE ^ descend fuel x w <= x /\ x < NBASE ^ (descend fuel x w + 1).
Proof.
  revert w; induction fuel as [|f IH]; intros w Hhi Hlo.
  - simpl. split; [|exact Hhi]. replace w with (w - Z.of_nat 0)%Z at 1 by lia.
    exact Hlo.
  - cbn [descend]. destruct (Qle_bool (NBASE ^ w) x) eqn:E.
    + split; [apply Qle_bool_iff; exact E | exact Hhi].
    + apply IH.
      * replace (w - 1 + 1)%Z with w by lia. apply Qle_bool_false; exact E.
      * replace (w - 1 - Z.of_nat f)%Z with (w - Z.of_nat (S f))%Z by lia.
        exact Hlo.
Qed.

Lemma pow2_le_NBASE (k : Z) : (0 <= k)%Z -> inject_Z (2 ^ k) <= NBASE ^ k.
Proof.
  intro Hk. rewrite Zpower_Qpower by exact Hk.
  pattern k. apply natlike_ind; [discriminate | | exact Hk].
  intros n Hn IH. unfold Z.succ.
  rewrite !Qpower_plus by discriminate.
  apply Qmult_le_compat_nonneg.
  - split; [apply Qpower_0_le; discriminate | exact IH].
  - split; discriminate.
Qed.

Lemma Qinv_le_contravar (a b : Q) : 0 < a -> a <= b -> / b <= / a.
Proof.
  intros Ha Hab. destruct (Qle_lt_or_eq _ _ Hab) as [H | H].
  - apply Qlt_le_weak.
    apply (proj1 (Qinv_lt_contravar a b Ha (Qlt_trans _ _ _ Ha H)) H).
  - rewrite H. apply Qle_refl.
Qed.

Lemma Qabs_num_den (x : Q) : Qabs x = (Z.abs (Qnum x) # Qden x).
Proof. destruct x as [n d]. reflexivity. Qed.

Lemma weight_spec (x : Q) :
  ~ x == 0 ->
  NBASE ^ weight x <= Qabs x /\ Qabs x < NBASE ^ (weight x + 1).
Proof.
  intro Hx. unfold weight. cbv zeta.
  assert (Hn : (1 <= Z.abs (Qnum x))%Z).
  { destruct x as [n d]. unfold Qeq in Hx. simpl in *. lia. }
  destruct (Qeq_bool (Qabs x) 0) eqn:E0.
  { exfalso. apply Qeq_bool_eq in E0. rewrite Qabs_num_den in E0.
    unfold Qeq in E0. simpl in E0. lia. }
  destruct (Qle_bool 1 (Qabs x)) eqn:E1.
  - apply climb_spec.
    + apply Qle_bool_iff in E1. exact E1.
    + rewrite Z2Nat.id by apply Z.log2_nonneg.
      apply Qle_lt_trans with (inject_Z (Z.abs (Qnum x))).
      * rewrite Qabs_num_den. unfold Qle. simpl.
        pose proof (Pos2Z.is_pos (Qden x)). nia.
      * apply Qlt_le_trans with (inject_Z (2 ^ (0 + Z.log2 (Z.abs (Qnum x)) + 1))).
        -- rewrite <- Zlt_Qlt. replace (0 + Z.log2 (Z.abs (Qnum x)) + 1)%Z
             with (Z.succ (Z.log2 (Z.abs (Qnum x)))) by lia.
           apply Z.log2_spec. lia.
        -- apply pow2_le_NBASE. pose proof (Z.log2_nonneg (Z.abs (Qnum x))). lia.
  - apply descend_spec.
    + apply Qle_bool_false in E1. exact E1.
    + rewrite Z2Nat.id by apply Z.log2_nonneg.
      set (k := Z.log2 (Z.pos (Qden x))).
      assert (Hk : (0 <= k)%Z) by apply Z.log2_nonneg.
      replace (-1 - k)%Z with (- (k + 1))%Z by lia.
      rewrite Qpower_opp.
      assert (H2 : (Z.pos (Qden x) < 2 ^ (k + 1))%Z).
      { replace (k + 1)%Z with (Z.succ k) by lia. apply Z.log2_spec. lia. }
      apply Qle_trans with (/ inject_Z (2 ^ (k + 1))).
      * apply Qinv_le_contravar.
        -- change 0 with (inject_Z 0). rewrite <- Zlt_Qlt. lia.
        -- apply pow2_le_NBASE. lia.
      * apply Qle_trans with (1 # Qden x).
        -- destruct (2 ^ (k + 1))%Z as [|p|p] eqn:Ep; try lia.
           unfold Qinv, inject_Z, Qle. simpl. lia.
        -- rewrite Qabs_num_den. unfold Qle. simpl. nia.
Qed.

Lemma weight_mono (a b : Q) : 0 < a -> a <= b -> (weight a <= weight b)%Z.
Proof.
  intros Ha Hab.
  assert (Hb : 0 < b) by (eapply Qlt_le_trans; eassumption).
  destruct (weight_spec a) as [La _]; [intro E; rewrite E in Ha; discriminate|].
  destruct (weight_spec b) as [_ Ub]; [intro E; rewrite E in Hb; discriminate|].
  rewrite Qabs_pos in La by (apply Qlt_le_weak; exact Ha).
  rewrite Qabs_pos in Ub by (apply Qlt_le_weak; exact Hb).
  assert (H : NBASE ^ weight a < NBASE ^ (weight b + 1)).
  { eapply Qle_lt_trans; [exact La|]. eapply Qle_lt_trans; eassumption. }
  apply Qpower_lt_compat_l_inv in H; [lia | exact NBASE_gt_1].
Qed.

Lemma first_digit_mono (a b : Q) :
  0 < a -> a <= b -> weight a = weight b -> (first_digit a <= first_digit b)%Z.
Proof.
  intros Ha Hab Hw. unfold first_digit. rewrite Hw.
  assert (Hb : 0 < b) by (eapply Qlt_le_trans; eassumption).
  rewrite !Qabs_pos by (apply Qlt_le_weak; assumption).
  apply Qfloor_resp_le. unfold Qdiv. apply Qmult_le_compat_r; [exact Hab|].
  apply Qlt_le_weak, Qinv_lt_0_compat, Qpower_0_lt. reflexivity.
Qed.

(** A quotient of at most 1 is computed to at least 20 decimal places. *)
Lemma select_div_scale_ge_20 (a b : Q) :
  0 < a -> a <= b -> (20 <= select_div_scale a b)%Z.
Proof.
  intros Ha Hab. unfold select_div_scale. cbv zeta.
  pose proof (weight_mono a b Ha Hab) as Hw.
  destruct (first_digit a <=? first_digit b)%Z eqn:E; [lia|].
  apply Z.leb_gt in E.
  assert (weight a <> weight b).
  { intro Heq. pose proof (first_digit_mono a b Ha Hab Heq). lia. }
  lia.
Qed.

Lemma select_div_scale_nonneg (a b : Q) : (0 <= select_div_scale a b)%Z.
Proof. unfold select_div_scale. cbv zeta. lia. Qed.

Lemma pow10_pos (s : Z) : (0 <= s)%Z -> 0 < inject_Z (10 ^ s).
Proof.
  intro Hs. change 0 with (inject_Z 0). rewrite <- Zlt_Qlt.
  apply Z.pow_pos_nonneg; lia.
Qed.

Lemma floor_half_close (y p : Q) :
  0 < p ->
  y / p - (1 # 2) / p <= inject_Z (Qfloor (y + (1 # 2))) / p /\
  inject_Z (Qfloor (y + (1 # 2))) / p <= y / p + (1 # 2) / p.
Proof.
  intro Hp.
  pose proof (Qfloor_le (y + (1 # 2))) as Hlo.
  pose proof (Qlt_floor (y + (1 # 2))) as Hhi.
  rewrite inject_Z_plus in Hhi. change (inject_Z 1) with 1 in Hhi.
  set (F := inject_Z (Qfloor (y + (1 # 2)))) in *.
  assert (Hi : 0 < / p) by (apply Qinv_lt_0_compat; exact Hp).
  unfold Qdiv. split.
  - setoid_replace (y * / p - (1 # 2) * / p) with ((y - (1 # 2)) * / p) by ring.
    apply Qmult_le_compat_r; [lra | apply Qlt_le_weak; exact Hi].
  - setoid_replace (y * / p + (1 # 2) * / p) with ((y + (1 # 2)) * / p) by ring.
    apply Qmult_le_compat_r; [lra | apply Qlt_le_weak; exact Hi].
Qed.

Lemma round_var_error (s : Z) (x : Q) :
  (0 <= s)%Z ->
  Qabs (round_var s x - x) <= (1 # 2) / inject_Z (10 ^ s).
Proof.
  intro Hs. pose proof (pow10_pos s Hs) as Hp.
  unfold round_var. cbv zeta. set (p := inject_Z (10 ^ s)) in *.
  assert (Hx : forall z, z * p / p == z).
  { intro z. field. intro E. rewrite E in Hp. discriminate. }
  apply Qabs_Qle_condition.
  destruct (Qle_bool 0 x).
  - destruct (floor_half_close (x * p) p Hp) as [H1 H2].
    rewrite Hx in H1, H2. split; lra.
  - destruct (floor_half_close (- x * p) p Hp) as [H1 H2].
    rewrite Hx in H1, H2. split; lra.
Qed.

Lemma round_var_unit (s : Z) (x : Q) :
  (0 <= s)%Z -> 0 <= x -> x <= 1 -> 0 <= round_var s x /\ round_var s x <= 1.
Proof.
  intros Hs H0 H1. pose proof (pow10_pos s Hs) as Hp.
  unfold round_var. cbv zeta. set (p := inject_Z (10 ^ s)) in *.
  apply Qle_bool_iff in H0 as Hb. rewrite Hb.
  assert (Hi : 0 < / p) by (apply Qinv_lt_0_compat; exact Hp).
  assert (Hxp : 0 <= x * p) by (apply Qmult_le_0_compat; [exact H0 | lra]).
  split.
  - unfold Qdiv. apply Qmult_le_0_compat; [|lra].
    change 0 with (inject_Z 0). rewrite <- Zle_Qle.
    change 0%Z with (Qfloor 0). apply Qfloor_resp_le. lra.
  - apply Qle_shift_div_r; [exact Hp|]. rewrite Qmult_1_l. unfold p.
    rewrite <- Zle_Qle.
    assert (H : (Qfloor (x * inject_Z (10 ^ s) + (1 # 2)) < 10 ^ s + 1)%Z).
    { rewrite Zlt_Qlt. eapply Qle_lt_trans; [apply Qfloor_le|].
      rewrite inject_Z_plus. change (inject_Z 1) with 1. fold p.
      assert (x * p <= 1 * p) by (apply Qmult_le_compat_r; [exact H1 | lra]).
      lra. }
    lia.
Qed.

Lemma round_var_0 (s : Z) : round_var s 0 == 0.
Proof.
  unfold round_var. cbv zeta. simpl Qle_bool. cbv iota.
  setoid_replace (0 * inject_Z (10 ^ s) + (1 # 2)) with (1 # 2) by ring.
  change (Qfloor (1 # 2)) with 0%Z. unfold Qdiv. apply Qmult_0_l.
Qed.

Lemma round_var_comp (s : Z) (x y : Q) : x == y -> round_var s x == round_var s y.
Proof.
  intro Hxy. unfold round_var. cbv zeta.
  rewrite (Qleb_comp 0 0 (Qeq_refl 0) x y Hxy).
  destruct (Qle_bool 0 y).
  - rewrite (Qfloor_comp (x * inject_Z (10 ^ s) + (1 # 2))
                         (y * inject_Z (10 ^ s) + (1 # 2)))
      by (rewrite Hxy; reflexivity). reflexivity.
  - rewrite (Qfloor_comp (- x * inject_Z (10 ^ s) + (1 # 2))
                         (- y * inject_Z (10 ^ s) + (1 # 2)))
      by (rewrite Hxy; reflexivity). reflexivity.
Qed.

Lemma numeric_div_zero (a b : Q) : a == 0 -> numeric_div a b == 0.
Proof.
  intro Ha. unfold numeric_div.
  assert (E : a / b == 0) by (rewrite Ha; unfold Qdiv; apply Qmult_0_l).
  rewrite (round_var_comp _ _ _ E). apply round_var_0.
Qed.

Lemma numeric_div_unit (a b : Q) :
  0 <= a -> a <= b -> 0 < b -> 0 <= numeric_div a b /\ numeric_div a b <= 1.
Proof.
  intros Ha Hab Hb. unfold numeric_div.
  apply round_var_unit.
  - apply select_div_scale_nonneg.
  - unfold Qdiv. apply Qmult_le_0_compat; [exact Ha|].
    apply Qlt_le_weak, Qinv_lt_0_compat. exact Hb.
  - apply Qle_shift_div_r; [exact Hb|]. lra.
Qed.

(** The rounding of a quotient of at most 1: half a unit of the 20th
    decimal place at most. *)
Lemma numeric_div_close (a b : Q) :
  0 < a -> a <= b ->
  Qabs (numeric_div a b - a / b) <= 1 # 200000000000000000000.
Proof.
  intros Ha Hab. unfold numeric_div.
  pose proof (select_div_scale_ge_20 a b Ha Hab) as H20.
  eapply Qle_trans; [apply round_var_error; lia|].
  set (s := select_div_scale a b) in *.
  apply Qle_shift_div_r; [apply pow10_pos; lia|].
  assert (H : inject_Z (10 ^ 20) <= inject_Z (10 ^ s)).
  { rewrite <- Zle_Qle. apply Z.pow_le_mono_r; lia. }
  change (inject_Z (10 ^ 20)) with 100000000000000000000 in H.
  lra.
Qed.

(** ** What each block of [add_gifts_to_game] touches *)

Local Open Scope Z_scope.

Lemma recalculate_game_chances_Ok (p_game_id : uuid) (d d' : db) :
  recalculate_game_chances p_game_id d = Ok d' ->
  d' = with_games
         (update_where (fun g => Games.id g =? p_game_id)
            (Games.set_totals (sum_gift_value (participants_of p_game_id d))
               (Z.of_nat (List.length (participants_of p_game_id d))))
            (games d))
         (with_game_participants
            (update_where (in_game p_game_id)
               (fun gp => GameParticipants.set_chance_percentage
                            (chance_of (sum_gift_value (participants_of p_game_id d)) gp) gp)
               (game_participants d)) d).
Proof.
  unfold recalculate_game_chances. intro H.
  apply bind_Ok in H as (n & Hn & H). apply int4_Ok in Hn. subst n.
  injection H as <-. reflexivity.
Qed.

Lemma participants_after_recalculate (p_game_id : uuid) (d d' : db) :
  recalculate_game_chances p_game_id d = Ok d' ->
  participants_of p_game_id d'
  = map (fun gp => GameParticipants.set_chance_percentage
                     (chance_of (sum_gift_value (participants_of p_game_id d)) gp) gp)
        (participants_of p_game_id d).
Proof.
  intro H. apply recalculate_game_chances_Ok in H. subst d'.
  unfold participants_of at 1. simpl.
  apply filter_update_where_same. reflexivity.
Qed.

Lemma sum_gift_value_set_chance (f : GameParticipants.Row -> Q)
  (rows : list GameParticipants.Row) :
  sum_gift_value (map (fun gp => GameParticipants.set_chance_percentage (f gp) gp) rows)
  = sum_gift_value rows.
Proof.
  unfold sum_gift_value. rewrite map_map. reflexivity.
Qed.

Lemma no_arbiter_index :
  arbiter_index "game_participant_gifts" ["game_participant_id"%string; "gift_id"%string]
  = false.
Proof. reflexivity. Qed.

(** The selection loop raises at its first element: the cast of the
    quantity or, at the latest, the planning of the upsert. *)
Lemma process_selections_raises now p vid st s sels :
  exists e, process_selections now p vid st (s :: sels) = Raise e.
Proof.
  destruct st as [v d]. cbn [process_selections]. unfold process_selection.
  destruct (int4 (quantity s)) as [q|e]; cbn [bind]; [|eauto].
  unfold upsert_game_participant_gift. rewrite no_arbiter_index. cbn. eauto.
Qed.

Lemma process_selections_Ok now p vid st sels st' :
  process_selections now p vid st sels = Ok st' -> sels = [] /\ st' = st.
Proof.
  destruct sels as [|s sels]; simpl.
  - intro H. injection H as <-. auto.
  - intro H. destruct (process_selections_raises now p vid st s sels) as (e & He).
    simpl in He. congruence.
Qed.

Lemma find_or_insert_participant_Ok g p name col pos d vid v0 d1 :
  find_or_insert_participant g p name col pos d = Ok (vid, v0, d1) ->
  (exists gp, participant_of g p d = Some gp /\ vid = GameParticipants.id gp /\
              v0 = {| v_current_gift_value := Some (GameParticipants.gift_value gp);
                      v_current_gifts_array := Some (GameParticipants.gifts_array gp) |} /\
              d1 = d) \/
  (participant_of g p d = None /\
   v0 = {| v_current_gift_value := None; v_current_gifts_array := None |} /\
   existsb (fun gp => GameParticipants.id gp =? vid) (game_participants d1) = true).
Proof.
  unfold find_or_insert_participant, participant_of.
  destruct (find _ _) as [gp|].
  - intro H; injection H as <- <- <-. left. exists gp. auto.
  - intro H. apply bind_Ok in H as ([i d0] & Hi & H). injection H as <- <- <-.
    unfold insert_game_participant in Hi.
    destruct (negb (game_exists g d)); [discriminate|].
    destruct (negb (player_exists p d)); [discriminate|].
    injection Hi as <- <-. right. split; [reflexivity|]. split; [reflexivity|].
    simpl. rewrite existsb_app. simpl. rewrite Z.eqb_refl. apply orb_true_iff. right.
    reflexivity.
Qed.

(** A successful submission is the submission of no selection by a
    player who has a row in the session: the row is rewritten with the
    values read from it, the chances and totals are recalculated, the
    countdown is started at two participants, and a log line is
    written. *)
Lemma add_gifts_to_game_inv now g p sels col pos name d d' :
  add_gifts_to_game now g p sels col pos name d = Ok d' ->
  sels = [] /\
  exists gp d4,
    participant_of g p d = Some gp /\
    recalculate_game_chances g (rewrite_participant gp d) = Ok d4 /\
    insert_join_log g p name (Some (GameParticipants.gift_value gp))
      (if 2 <=? Z.of_nat (List.length (participants_of g d4))
       then start_countdown now g d4 else d4) = Ok d'.
Proof.
  unfold add_gifts_to_game. intro H.
  apply bind_Ok in H as ([[vid v0] d1] & H1 & H).
  apply bind_Ok in H as ([v d2] & H2 & H).
  apply bind_Ok in H as (d3 & H3 & H).
  apply bind_Ok in H as (d4 & H4 & H).
  apply bind_Ok in H as (n & Hn & H).
  apply int4_Ok in Hn. subst n.
  apply process_selections_Ok in H2 as [-> E]. injection E as -> ->.
  split; [reflexivity|].
  apply find_or_insert_participant_Ok in H1 as [(gp & Hgp & -> & -> & ->) | (_ & -> & Hex)].
  - simpl in H3. injection H3 as <-. exists gp, d4. auto.
  - unfold store_gifts in H3. simpl in H3. rewrite Hex in H3. discriminate.
Qed.

Lemma filter_map_commute {A : Type} (c : A -> bool) (h : A -> A) (l : list A) :
  (forall x, c (h x) = c x) ->
  filter c (map h l) = map h (filter c l).
Proof.
  intro Hc. induction l as [|a l IH]; simpl; [reflexivity|].
  rewrite Hc. destruct (c a); simpl; rewrite IH; reflexivity.
Qed.

Lemma rewrite_participant_of g gp d :
  participants_of g (rewrite_participant gp d)
  = update_where (fun r => GameParticipants.id r =? GameParticipants.id gp)
      (GameParticipants.set_gifts (GameParticipants.gift_value gp)
         (GameParticipants.gifts_array gp))
      (participants_of g d).
Proof.
  unfold participants_of, rewrite_participant, update_where. simpl.
  apply filter_map_commute. intro x.
  destruct (GameParticipants.id x =? GameParticipants.id gp); reflexivity.
Qed.

Lemma insert_join_log_Ok g p name value d d' :
  insert_join_log g p name value d = Ok d' ->
  game_exists g d = true /\ player_exists p d = true /\
  games d' = games d /\ game_participants d' = game_participants d /\
  player_gifts d' = player_gifts d /\ players d' = players d /\
  match_history d' = match_history d /\
  game_participant_gifts d' = game_participant_gifts d /\ gifts d' = gifts d /\
  uuid_supply d' = uuid_supply d /\
  exists v, value = Some v /\
    game_logs d'
    = game_logs d ++ [ {| GameLogs.game_id := g; GameLogs.player_id := Some p;
                          GameLogs.log_type := "join";
                          GameLogs.message := added_gifts name v |} ].
Proof.
  unfold insert_join_log. destruct value as [v|]; [|discriminate].
  destruct (game_exists g d); simpl; [|discriminate].
  destruct (player_exists p d); simpl; [|discriminate].
  intro H; injection H as <-. repeat split. exists v. auto.
Qed.

Lemma participants_of_countdown_step now g g' (b : bool) d :
  participants_of g' (if b then start_countdown now g d else d) = participants_of g' d.
Proof. destruct b; reflexivity. Qed.

(** ** Pot and chances after a submission *)

Lemma Qpositive_iff (v : Q) : Qpositive v = true <-> (0 < v)%Q.
Proof.
  unfold Qpositive. rewrite negb_true_iff. split.
  - intro H. apply Qnot_le_lt. intro Hle. apply Qle_bool_iff in Hle. congruence.
  - intro H. destruct (Qle_bool v 0) eqn:E; [|reflexivity].
    apply Qle_bool_iff in E. lra.
Qed.

Lemma SUM_shares (T : Q) (vs : list Q) :
  ~ (T == 0)%Q ->
  (SUM (map (fun v => 100 * v / T) vs) == 100 * SUM vs / T)%Q.
Proof.
  intro HT. induction vs as [|v vs IH]; simpl.
  - field. exact HT.
  - rewrite IH. field. exact HT.
Qed.

Lemma SUM_member_le (v : Q) (vs : list Q) :
  Forall (fun x => 0 <= x)%Q vs -> In v vs -> (v <= SUM vs)%Q.
Proof.
  induction vs as [|a vs IH]; intros Hpos Hin; [contradiction|].
  inversion Hpos as [|? ? Ha Hvs]; subst. simpl.
  pose proof (SUM_nonneg vs Hvs) as Hs.
  destruct Hin as [-> | Hin]; [lra|]. specialize (IH Hvs Hin). lra.
Qed.

(** One win-probability: the rounded quotient times 100 is within
    [chance_tolerance] of 100 times the exact quotient. *)
Lemma chance_close (v T : Q) :
  (0 <= v)%Q -> (v <= T)%Q -> (0 < T)%Q ->
  (Qabs (numeric_div v T * 100 - 100 * v / T) <= chance_tolerance)%Q.
Proof.
  intros Hv Hle HT. destruct (Qle_lt_or_eq 0 v Hv) as [Hpos | Hz].
  - pose proof (numeric_div_close v T Hpos Hle) as Hc.
    apply Qabs_Qle_condition in Hc. apply Qabs_Qle_condition.
    unfold chance_tolerance.
    setoid_replace (100 * v / T)%Q with (100 * (v / T))%Q by (field; lra).
    split; lra.
  - assert (E : (numeric_div v T * 100 - 100 * v / T == 0)%Q).
    { rewrite numeric_div_zero by (symmetry; exact Hz). rewrite <- Hz. field. lra. }
    rewrite E. discriminate.
Qed.

Lemma SUM_pointwise_close {A : Type} (f g : A -> Q) (e : Q) (l : list A) :
  (forall x, In x l -> (Qabs (f x - g x) <= e)%Q) ->
  (Qabs (SUM (map f l) - SUM (map g l)) <= inject_Z (Z.of_nat (List.length l)) * e)%Q.
Proof.
  induction l as [|a l IH]; intro H.
  - simpl. rewrite Qmult_0_l. discriminate.
  - cbn [map SUM fold_right List.length]. fold (SUM (map f l)). fold (SUM (map g l)).
    rewrite Nat2Z.inj_succ. unfold Z.succ. rewrite inject_Z_plus.
    change (inject_Z 1) with 1%Q.
    pose proof (H a (or_introl eq_refl)) as Ha.
    assert (Hl : (Qabs (SUM (map f l) - SUM (map g l))
                  <= inject_Z (Z.of_nat (List.length l)) * e)%Q)
      by (apply IH; intros x Hx; apply H; right; exact Hx).
    apply Qabs_Qle_condition in Ha, Hl. apply Qabs_Qle_condition.
    split; lra.
Qed.

Lemma pot_after_recalculate (g : uuid) (d d' : db) (x : Games.Row) :
  recalculate_game_chances g d = Ok d' ->
  In x (games d') -> Games.id x = g ->
  Games.total_pot_balance x = sum_gift_value (participants_of g d) /\
  Games.total_players x = Z.of_nat (List.length (participants_of g d)).
Proof.
  intros H Hin Hid. apply recalculate_game_chances_Ok in H. subst d'.
  simpl in Hin. unfold update_where in Hin. apply in_map_iff in Hin as (r & <- & _).
  destruct (Games.id r =? g) eqn:E; [split; reflexivity|].
  apply Z.eqb_neq in E. contradiction.
Qed.

Lemma pot_after_countdown_step now (g : uuid) (b : bool) (d : db) (x : Games.Row) :
  In x (games (if b then start_countdown now g d else d)) ->
  exists r, In r (games d) /\ Games.id x = Games.id r /\
            Games.total_pot_balance x = Games.total_pot_balance r /\
            Games.total_players x = Games.total_players r /\
            Games.status x = Games.status r.
Proof.
  destruct b; [|intro H; exists x; auto].
  simpl. unfold update_where. intro H. apply in_map_iff in H as (r & <- & Hr).
  exists r. destruct (_ && _); auto.
Qed.

(** C1, as amended.  After every successful [add_gifts_to_game] the
    session row exists and records as total pot the sum of the
    contribution values of the session's participants.  When the pot is
    not positive every win-probability of the session is 0.  When it is
    positive and no value is negative, each win-probability is within
    [chance_tolerance] of 100 times the participant's value divided by
    the pot, and the probabilities of the session add up to 100 within
    that tolerance per participant. *)
Theorem add_gifts_to_game_pot_and_chances now g p sels col pos name d d' :
  add_gifts_to_game now g p sels col pos name d = Ok d' ->
  exists session,
    get_game g d' = Some session /\
    Games.total_pot_balance session = sum_gift_value (participants_of g d') /\
    (~ (0 < Games.total_pot_balance session)%Q ->
     forall gp, In gp (participants_of g d') ->
       GameParticipants.chance_percentage gp = 0%Q) /\
    ((0 < Games.total_pot_balance session)%Q ->
     Forall (fun gp => 0 <= GameParticipants.gift_value gp)%Q (participants_of g d') ->
     (forall gp, In gp (participants_of g d') ->
        (Qabs (GameParticipants.chance_percentage gp
               - 100 * GameParticipants.gift_value gp / Games.total_pot_balance session)
         <= chance_tolerance)%Q) /\
     (Qabs (SUM (map GameParticipants.chance_percentage (participants_of g d')) - 100)
      <= inject_Z (participant_count g d') * chance_tolerance)%Q).
Proof.
  intro H. apply add_gifts_to_game_inv in H as (_ & gp0 & d4 & _ & H4 & Hlog).
  apply insert_join_log_Ok in Hlog as (Hex & _ & Hgames & Hparts & _).
  set (d3 := rewrite_participant gp0 d) in *.
  set (T := sum_gift_value (participants_of g d3)).
  assert (Hp : participants_of g d'
               = map (fun gp => GameParticipants.set_chance_percentage (chance_of T gp) gp)
                     (participants_of g d3)).
  { unfold participants_of at 1. rewrite Hparts.
    change (filter (in_game g) (game_participants ?x)) with (participants_of g x).
    rewrite participants_of_countdown_step.
    apply participants_after_recalculate. exact H4. }
  assert (HT : sum_gift_value (participants_of g d') = T).
  { rewrite Hp. apply sum_gift_value_set_chance. }
  apply existsb_find in Hex as (session & Hs).
  exists session. unfold get_game. rewrite Hgames. split; [exact Hs|].
  assert (Hpot : Games.total_pot_balance session = T).
  { apply find_some in Hs as (Hin & Hid). apply Z.eqb_eq in Hid.
    apply pot_after_countdown_step in Hin as (r & Hr & Hidr & Hpot & _).
    rewrite Hpot. apply (pot_after_recalculate g d3 d4 r H4 Hr). congruence. }
  rewrite Hpot, HT. split; [reflexivity|]. split.
  - intros Hn gp Hin. rewrite Hp in Hin. apply in_map_iff in Hin as (r & <- & _).
    simpl. unfold chance_of. destruct (Qpositive T) eqn:E; [|reflexivity].
    apply Qpositive_iff in E. contradiction.
  - intros Hpos Hnn.
    assert (Hnn3 : Forall (fun gp => 0 <= GameParticipants.gift_value gp)%Q
                          (participants_of g d3)).
    { rewrite Hp in Hnn. rewrite Forall_map in Hnn. exact Hnn. }
    assert (Hrow : forall r, In r (participants_of g d3) ->
              (Qabs (chance_of T r - 100 * GameParticipants.gift_value r / T)
               <= chance_tolerance)%Q).
    { intros r Hr. unfold chance_of. rewrite (proj2 (Qpositive_iff _) Hpos).
      apply chance_close; [| |exact Hpos].
      - rewrite Forall_forall in Hnn3. apply Hnn3. exact Hr.
      - unfold T, sum_gift_value. apply SUM_member_le.
        + rewrite Forall_map. exact Hnn3.
        + apply in_map. exact Hr. }
    split.
    + intros gp Hin. rewrite Hp in Hin. apply in_map_iff in Hin as (r & <- & Hr).
      simpl. apply Hrow. exact Hr.
    + unfold participant_count. rewrite Hp, !length_map, map_map.
      rewrite (map_ext _ (chance_of T)) by (intro; reflexivity).
      assert (E : (SUM (map (fun r => 100 * GameParticipants.gift_value r / T)
                            (participants_of g d3)) == 100)%Q).
      { rewrite <- (map_map GameParticipants.gift_value (fun v => (100 * v / T)%Q)).
        rewrite SUM_shares by lra. unfold T, sum_gift_value in *. field. lra. }
      eapply Qle_trans; [|apply SUM_pointwise_close; exact Hrow].
      apply Qle_lteq. right. apply Qabs_wd. rewrite E. reflexivity.
Qed.

Lemma add_gifts_to_game_pot_and_chances_witness :
  exists session,
    get_game 100 alice_touches_three_way = Some session /\
    Games.total_pot_balance session
    = sum_gift_value (participants_of 100 alice_touches_three_way) /\
    (~ (0 < Games.total_pot_balance session)%Q ->
     forall gp, In gp (participants_of 100 alice_touches_three_way) ->
       GameParticipants.chance_percentage gp = 0%Q) /\
    ((0 < Games.total_pot_balance session)%Q ->
     Forall (fun gp => 0 <= GameParticipants.gift_value gp)%Q
            (participants_of 100 alice_touches_three_way) ->
     (forall gp, In gp (participants_of 100 alice_touches_three_way) ->
        (Qabs (GameParticipants.chance_percentage gp
               - 100 * GameParticipants.gift_value gp / Games.total_pot_balance session)
         <= chance_tolerance)%Q) /\
     (Qabs (SUM (map GameParticipants.chance_percentage
                   (participants_of 100 alice_touches_three_way)) - 100)
      <= inject_Z (participant_count 100 alice_touches_three_way) * chance_tolerance)%Q).
Proof.
  apply (add_gifts_to_game_pot_and_chances 40 100 1 [] "#FF6B6B" 0 "alice"
           three_way_round alice_touches_three_way).
  vm_compute. reflexivity.
Defined.

(** C1, the claim as stated fails.  Alice, Bob and Carol hold 10 each;
    after Alice's successful submission every stored win-probability is
    33.333333333333333333, which is not 100 * 10 / 30, and the three add
    up to 99.999999999999999999, not to 100. *)
Lemma exact_chances_fail :
  add_gifts_to_game 40 100 1 [] "#FF6B6B" 0 "alice" three_way_round
  = Ok alice_touches_three_way /\
  map GameParticipants.gift_value (participants_of 100 alice_touches_three_way)
  = [10; 10; 10]%Q /\
  option_map Games.total_pot_balance (get_game 100 alice_touches_three_way)
  = Some 30%Q /\
  Forall (fun gp => (GameParticipants.chance_percentage gp
                     == 33333333333333333333 # 1000000000000000000)%Q /\
                    ~ (GameParticipants.chance_percentage gp
                       == 100 * GameParticipants.gift_value gp / 30)%Q)
         (participants_of 100 alice_touches_three_way) /\
  ~ (SUM (map GameParticipants.chance_percentage
            (participants_of 100 alice_touches_three_way)) == 100)%Q /\
  ~ spec_pot_and_chances 100 alice_touches_three_way.
Proof.
  split; [vm_compute; reflexivity|].
  split; [vm_compute; reflexivity|].
  split; [vm_compute; reflexivity|].
  split.
  { vm_compute. repeat constructor; intro H; discriminate H. }
  split.
  { intro H. vm_compute in H. discriminate. }
  intros (session & Hs & _ & _ & Hsum).
  vm_compute in Hs. injection Hs as <-.
  assert (H : (SUM (map GameParticipants.chance_percentage
                      (participants_of 100 alice_touches_three_way)) == 100)%Q)
    by (apply Hsum; reflexivity).
  vm_compute in H. discriminate.
Qed.
(** ** The countdown deadline *)

Lemma deadline_after_submission now g p sels col pos name d d' :
  add_gifts_to_game now g p sels col pos name d = Ok d' ->
  game_exists g d = true /\ game_exists g d' = true /\
  deadline g d' = match deadline g d with
                  | Some t => Some t
                  | None => if 2 <=? participant_count g d'
                            then Some (now + 60) else None
                  end.
Proof.
  intro H. apply add_gifts_to_game_inv in H as (_ & gp & d4 & _ & H4 & Hlog).
  apply insert_join_log_Ok in Hlog as (Hex & _ & Hgames & Hparts & _).
  pose proof (recalculate_game_chances_Ok _ _ _ H4) as E4.
  assert (Hcount : participant_count g d' = participant_count g d4).
  { unfold participant_count, participants_of. rewrite Hparts.
    change (filter (in_game g) (game_participants ?x)) with (participants_of g x).
    rewrite participants_of_countdown_step. reflexivity. }
  fold (participant_count g d4) in Hex, Hgames. rewrite <- Hcount in Hex, Hgames.
  assert (Hg4 : games d4
                = update_where (fun r => Games.id r =? g)
                    (Games.set_totals
                       (sum_gift_value (participants_of g (rewrite_participant gp d)))
                       (Z.of_nat (List.length (participants_of g (rewrite_participant gp d)))))
                    (games d)).
  { rewrite E4. reflexivity. }
  assert (Hd4 : deadline g d4 = deadline g d /\ game_exists g d4 = game_exists g d).
  { unfold deadline, get_game, game_exists. rewrite Hg4. unfold update_where. split.
    - rewrite find_map_preserving
        by (intro x; destruct (Games.id x =? g) eqn:E; simpl; rewrite ?E; reflexivity).
      destruct (find _ (games d)) as [r|]; simpl; [|reflexivity].
      destruct (Games.id r =? g); reflexivity.
    - apply existsb_map_preserving.
      intro x; destruct (Games.id x =? g) eqn:E; simpl; rewrite ?E; reflexivity. }
  destruct Hd4 as [Hd4 He4].
  assert (Hex' : game_exists g d' = true).
  { unfold game_exists. rewrite Hgames. exact Hex. }
  split; [|split; [exact Hex'|]].
  - rewrite <- He4. destruct (2 <=? participant_count g d'); [|exact Hex].
    unfold game_exists in *. simpl in Hex. unfold update_where in Hex.
    rewrite existsb_map_preserving in Hex; [exact Hex|].
    intro x. destruct (_ && _); reflexivity.
  - rewrite <- Hd4. unfold deadline at 1. unfold get_game. rewrite Hgames.
    destruct (2 <=? participant_count g d').
    + simpl. unfold update_where.
      rewrite find_map_preserving by (intro x; destruct (_ && _); reflexivity).
      unfold deadline, get_game.
      destruct (find (fun g0 => Games.id g0 =? g) (games d4)) as [r|] eqn:Er; simpl.
      * apply find_some in Er as (_ & Eid). rewrite Eid. simpl.
        destruct (Games.countdown_ends_at r) eqn:Ec; simpl; rewrite ?Ec; reflexivity.
      * unfold game_exists in Hex. simpl in Hex. unfold update_where in Hex.
        rewrite existsb_map_preserving in Hex
          by (intro x; destruct (_ && _); reflexivity).
        apply existsb_find in Hex as (a & Ha). congruence.
    + unfold deadline, get_game.
      destruct (find _ (games d4)) as [r|]; [|reflexivity].
      destruct (Games.countdown_ends_at r); reflexivity.
Qed.




(** ** One participant row per player and session *)

(** C4. A repeated submission is meant to merge into the player's row.
    In [two_player_round] Alice holds a row with a stake of 30; her
    submission of 2 more stars is refused at the upsert of the ledger
    row, whose [ON CONFLICT (game_participant_id, gift_id)] names a
    unique index the schema does not declare, and her stake stays 30
    where the merge gives 50.  A first join (Carol) is refused as well:
    the locals are [NULL] after the lookup, and the [NOT NULL] columns
    refuse the final [UPDATE]. *)
Theorem repeated_join_is_refused :
  option_map GameParticipants.gift_value (participant_of 100 1 two_player_round)
  = Some 30%Q /\
  add_gifts_to_game 500 100 1 (stars 2) "#FF6B6B" 0 "alice" two_player_round
  = Raise invalid_column_reference /\
  option_map GameParticipants.gift_value
    (participant_of 100 1
       (commit two_player_round
          (add_gifts_to_game 500 100 1 (stars 2) "#FF6B6B" 0 "alice" two_player_round)))
  = Some 30%Q /\
  participant_of 100 3 two_player_round = None /\
  add_gifts_to_game 500 100 3 (stars 1) "#FF6B6B" 2 "carol" two_player_round
  = Raise invalid_column_reference /\
  add_gifts_to_game 500 100 3 [] "#FF6B6B" 2 "carol" two_player_round
  = Raise not_null_violation.
Proof.
  vm_compute. repeat split.
Qed.

(** ** The wallet *)



(** ** The session status *)

Lemma game_exists_relabel f g d : game_exists g (relabel f d) = game_exists g d.
Proof.
  unfold game_exists, relabel. simpl. apply existsb_map_preserving. reflexivity.
Qed.

Lemma find_or_insert_participant_relabel f g p name col pos d :
  find_or_insert_participant g p name col pos (relabel f d)
  = fmap (fun x => (fst x, relabel f (snd x)))
         (find_or_insert_participant g p name col pos d).
Proof.
  unfold find_or_insert_participant. simpl.
  destruct (find _ (game_participants d)) as [gp|]; [reflexivity|].
  unfold insert_game_participant. rewrite game_exists_relabel.
  destruct (game_exists g d); [|reflexivity].
  change (player_exists p (relabel f d)) with (player_exists p d).
  destruct (player_exists p d); reflexivity.
Qed.

Lemma process_selection_relabel f now p vid v d s :
  process_selection now p vid (v, relabel f d) s
  = fmap (fun x => (fst x, relabel f (snd x))) (process_selection now p vid (v, d) s).
Proof.
  unfold process_selection. cbn [bind].
  destruct (int4 (quantity s)) as [q|]; [cbn [bind]|reflexivity].
  change (upsert_game_participant_gift now vid (giftId s) q (totalValue s) (relabel f d))
    with (upsert_game_participant_gift now vid (giftId s) q (totalValue s) d).
  destruct (upsert_game_participant_gift now vid (giftId s) q (totalValue s) d) as [gpg|];
    [cbn [bind]|reflexivity].
  change (player_gifts (relabel f d)) with (player_gifts d).
  destruct (debit_player_gifts p (giftId s) q (player_gifts d)) as [pg|];
    [cbn [bind]|reflexivity].
  change (gifts (relabel f d)) with (gifts d).
  destruct (find _ (gifts d)) as [gift|]; reflexivity.
Qed.

Lemma process_selections_relabel f now p vid sels v d :
  process_selections now p vid (v, relabel f d) sels
  = fmap (fun x => (fst x, relabel f (snd x))) (process_selections now p vid (v, d) sels).
Proof.
  revert v d; induction sels as [|s sels IH]; intros v d;
    cbn [process_selections]; [reflexivity|].
  rewrite process_selection_relabel.
  destruct (process_selection now p vid (v, d) s) as [[v1 d1]|];
    cbn [bind fmap fst snd]; [|reflexivity].
  apply IH.
Qed.

Lemma store_gifts_relabel f vid v d :
  store_gifts vid v (relabel f d) = fmap (relabel f) (store_gifts vid v d).
Proof.
  unfold store_gifts.
  destruct (v_current_gift_value v), (v_current_gifts_array v); try reflexivity;
    change (game_participants (relabel f d)) with (game_participants d);
    destruct (existsb _ _); reflexivity.
Qed.

Lemma recalculate_game_chances_relabel f g d :
  recalculate_game_chances g (relabel f d)
  = fmap (relabel f) (recalculate_game_chances g d).
Proof.
  unfold recalculate_game_chances.
  change (participants_of g (relabel f d)) with (participants_of g d).
  destruct (int4 _) as [n|]; [simpl|reflexivity].
  f_equal. unfold relabel, with_games, with_game_participants; simpl. f_equal.
  unfold update_where. rewrite !map_map. apply map_ext. intro r. simpl.
  destruct (Games.id r =? g); reflexivity.
Qed.

Lemma start_countdown_relabel f now g d :
  start_countdown now g (relabel f d) = relabel f (start_countdown now g d).
Proof.
  unfold start_countdown, relabel, with_games; simpl. f_equal.
  unfold update_where. rewrite !map_map. apply map_ext. intro r. simpl.
  destruct (_ && _); reflexivity.
Qed.

Lemma insert_join_log_relabel f g p name value d :
  insert_join_log g p name value (relabel f d)
  = fmap (relabel f) (insert_join_log g p name value d).
Proof.
  unfold insert_join_log. destruct value as [v|]; [|reflexivity].
  rewrite game_exists_relabel.
  change (player_exists p (relabel f d)) with (player_exists p d).
  destruct (negb _); reflexivity.
Qed.

(** C7, as amended.  [add_gifts_to_game] does not read the status of the
    session: whatever status the session rows carry, a submission raises
    the same error or makes the same changes. *)
Theorem submission_ignores_status (f : uuid -> string) now g p sels col pos name d :
  add_gifts_to_game now g p sels col pos name (relabel f d)
  = fmap (relabel f) (add_gifts_to_game now g p sels col pos name d).
Proof.
  unfold add_gifts_to_game.
  rewrite find_or_insert_participant_relabel.
  destruct (find_or_insert_participant g p name col pos d) as [[[vid v0] d1]|];
    [simpl|reflexivity].
  rewrite process_selections_relabel.
  destruct (process_selections now p vid (v0, d1) sels) as [[v d2]|];
    [simpl|reflexivity].
  rewrite store_gifts_relabel.
  destruct (store_gifts vid v d2) as [d3|]; [simpl|reflexivity].
  rewrite recalculate_game_chances_relabel.
  destruct (recalculate_game_chances g d3) as [d4|]; [simpl|reflexivity].
  change (participants_of g (relabel f d4)) with (participants_of g d4).
  destruct (int4 _) as [n|]; [simpl|reflexivity].
  destruct (2 <=? n).
  - rewrite start_countdown_relabel. apply insert_join_log_relabel.
  - apply insert_join_log_relabel.
Qed.

(** C7, the claim as stated fails: [completed_round] is completed and
    its deadline (80) has passed at time 500, yet the submission Alice
    sends without a selection is applied: the call succeeds and writes
    its [join] line to the log of the completed session. *)
Lemma closed_session_accepts_submission :
  option_map Games.status (get_game 100 completed_round) = Some "completed"%string /\
  deadline 100 completed_round = Some 80 /\
  ~ spec_rejects_closed 500 100 1 [] "#FF6B6B" 0 "alice" completed_round /\
  add_gifts_to_game 500 100 1 [] "#FF6B6B" 0 "alice" completed_round
  = Ok alice_touches_after_archival /\
  List.length (game_logs alice_touches_after_archival)
  = S (List.length (game_logs completed_round)).
Proof.
  split; [vm_compute; reflexivity|]. split; [vm_compute; reflexivity|]. split.
  - intro H. assert (Hc : session_open 100 completed_round = false)
      by (vm_compute; reflexivity).
    apply H in Hc. vm_compute in Hc. discriminate.
  - split; vm_compute; reflexivity.
Qed.

(** ** Resolution and archival *)

Lemma completeGame_Ok now g w c pot d d' :
  completeGame now g w c pot d = (d', None) ->
  exists winnerData data chance,
    filter (fun p => Players.id p =? w) (players d) = [winnerData] /\
    c = Some chance /\
    game_rows g (with_games (update_where (fun r => Games.id r =? g)
                               (Games.set_completed w now) (games d)) d) = [data] /\
    d' = with_match_history
           (match_history d ++
              [ {| MatchHistory.game_id := g;
                   MatchHistory.roll_number := Games.roll_number data;
                   MatchHistory.winner_player_id := w;
                   MatchHistory.winner_name :=
                     or_default (Players.username winnerData)
                       (or_default (Players.first_name winnerData) "Unknown Winner");
                   MatchHistory.winner_chance := chance;
                   MatchHistory.total_pot := pot;
                   MatchHistory.players_snapshot :=
                     map (snapshot_of d) (participants_of g d);
                   MatchHistory.timestamp := now |} ])
           (with_games (update_where (fun r => Games.id r =? g)
                          (Games.set_completed w now) (games d)) d).
Proof.
  unfold completeGame, game_rows.
  destruct (filter _ (players d)) as [|winnerData [|? ?]]; try discriminate.
  destruct (filter _ (games _)) as [|data [|? ?]] eqn:Eg; try discriminate.
  destruct c as [chance|]; [|discriminate].
  intro H; injection H as <-. exists winnerData, data, chance. auto.
Qed.

Lemma game_rows_completed g w now d :
  game_rows g (with_games (update_where (fun r => Games.id r =? g)
                             (Games.set_completed w now) (games d)) d)
  = map (Games.set_completed w now) (game_rows g d).
Proof.
  unfold game_rows. simpl. apply filter_update_where_same. reflexivity.
Qed.

Lemma history_of_app g d row :
  MatchHistory.game_id row = g ->
  forall d0, match_history d0 = match_history d ++ [row] ->
  List.length (history_of g d0) = S (List.length (history_of g d)).
Proof.
  intros Hg d0 E. unfold history_of. rewrite E, filter_app, length_app. simpl.
  rewrite Hg, Z.eqb_refl. simpl. lia.
Qed.

Lemma completeGame_succeeds now g w chance pot d winnerData data :
  filter (fun p => Players.id p =? w) (players d) = [winnerData] ->
  game_rows g d = [data] ->
  exists d',
    completeGame now g w (Some chance) pot d = (d', None) /\
    players d' = players d /\
    game_rows g d' = [Games.set_completed w now data] /\
    List.length (history_of g d') = S (List.length (history_of g d)).
Proof.
  intros Hw Hg. unfold completeGame. rewrite Hw.
  cbn [games with_games]. unfold game_rows in Hg.
  rewrite filter_update_where_same by reflexivity. rewrite Hg. cbn [map].
  eexists. split; [reflexivity|]. split; [reflexivity|]. split.
  - unfold game_rows. cbn [games with_games with_match_history].
    rewrite filter_update_where_same by reflexivity. rewrite Hg. reflexivity.
  - eapply history_of_app; [|reflexivity]. reflexivity.
Qed.

(** C8, as amended.  [completeGame] carries no status guard.  After a
    resolution that succeeded, a second one for the same session succeeds
    again, whichever existing player it names as winner: the session row
    stays single and completed and takes the second winner, and each of
    the two resolutions has appended a history entry of its own. *)
Theorem completeGame_archives_on_every_call
  now1 now2 g w1 w2 c1 c2 pot1 pot2 d d1 :
  completeGame now1 g w1 c1 pot1 d = (d1, None) ->
  List.length (filter (fun p => Players.id p =? w2) (players d)) = 1%nat ->
  exists d2 s,
    completeGame now2 g w2 (Some c2) pot2 d1 = (d2, None) /\
    game_rows g d2 = [s] /\
    Games.status s = "completed"%string /\
    Games.winner_player_id s = Some w2 /\
    List.length (history_of g d2) = S (S (List.length (history_of g d))).
Proof.
  intros H1 Hw2.
  pose proof (completeGame_Ok _ _ _ _ _ _ _ H1)
    as (wd1 & data1 & ch1 & Hw1 & -> & Hrows1 & _).
  rewrite game_rows_completed in Hrows1.
  destruct (game_rows g d) as [|x [|? ?]] eqn:Hrows; try discriminate.
  destruct (completeGame_succeeds now1 g w1 ch1 pot1 d wd1 x Hw1 Hrows)
    as (d1' & E1 & Hp1 & Hg1 & Hh1).
  rewrite H1 in E1. injection E1 as <-.
  destruct (filter (fun p => Players.id p =? w2) (players d)) as [|wd2 [|? ?]] eqn:Ew;
    try discriminate.
  rewrite <- Hp1 in Ew.
  destruct (completeGame_succeeds now2 g w2 c2 pot2 d1 wd2 _ Ew Hg1)
    as (d2 & E2 & _ & Hg2 & Hh2).
  exists d2, (Games.set_completed w2 now2 (Games.set_completed w1 now1 x)).
  split; [exact E2|]. split; [exact Hg2|]. split; [reflexivity|].
  split; [reflexivity|]. rewrite Hh2, Hh1. reflexivity.
Qed.

(** C8, the claim as stated fails: the expiry of [two_player_round]
    resolved twice, at times 90 and 91, leaves one completed session and
    two history entries. *)
Lemma double_resolution_archives_twice :
  ~ spec_resolution_idempotent 90 91 100 2 (Some 70%Q) 100%Q two_player_round /\
  map Games.status (game_rows 100 (resolve_twice 90 91 100 2 (Some 70%Q) 100%Q
                                     two_player_round))
  = ["completed"%string] /\
  map MatchHistory.timestamp
      (history_of 100 (resolve_twice 90 91 100 2 (Some 70%Q) 100%Q two_player_round))
  = [90; 91].
Proof.
  split; [|split; vm_compute; reflexivity].
  unfold spec_resolution_idempotent. vm_compute. discriminate.
Qed.

(** ** The resolution at a sample input *)

Lemma completeGame_archives_on_every_call_witness :
  exists d2 s,
    completeGame 91 100 1 (Some 30%Q) 100%Q completed_round = (d2, None) /\
    game_rows 100 d2 = [s] /\
    Games.status s = "completed"%string /\
    Games.winner_player_id s = Some 1 /\
    List.length (history_of 100 d2) = S (S (List.length (history_of 100 two_player_round))).
Proof.
  apply (completeGame_archives_on_every_call 90 91 100 2 1 (Some 70%Q) 30%Q 100%Q 100%Q
           two_player_round completed_round).
  - vm_compute. reflexivity.
  - vm_compute. reflexivity.
Defined.

(** ** The history read *)

(** C9. A history read is meant to return the roster and the names
    frozen at archive time.  [completeGame] stores the frozen roster in
    [players_snapshot] (in [completed_round]: the values 30 and 70), but
    the select of [getMatchHistory] embeds [game_participants] in
    [match_history], two tables without a relationship in the schema:
    the request is refused and the helper throws, for every store and
    every limit, so no roster is ever read back. *)
Theorem history_read_throws :
  map (fun m => map snap_gift_value (MatchHistory.players_snapshot m))
      (match_history completed_round) = [[30; 70]]%Q /\
  relationship "match_history" "game_participants" = false /\
  forall (limit : nat) (d : db), getMatchHistory limit d = Raise PGRST200.
Proof.
  split; [vm_compute; reflexivity|]. split; reflexivity.
Qed.

(** * Further properties of the code *)

(** ** [recalculate_game_chances] *)

Lemma update_where_idempotent {A : Type} (c : A -> bool) (f : A -> A) (l : list A) :
  (forall x, c (f x) = c x) -> (forall x, f (f x) = f x) ->
  update_where c f (update_where c f l) = update_where c f l.
Proof.
  intros Hc Hf. unfold update_where. rewrite map_map. apply map_ext. intro x.
  destruct (c x) eqn:E; [rewrite Hc, E, Hf | rewrite E]; reflexivity.
Qed.

Lemma filter_update_where_other {A : Type} (c k : A -> bool) (f : A -> A) (l : list A) :
  (forall x, In x l -> c x = true -> k x = false /\ k (f x) = false) ->
  filter k (update_where c f l) = filter k l.
Proof.
  induction l as [|a l IH]; intro H; simpl; [reflexivity|].
  rewrite IH by (intros x Hx; apply H; right; exact Hx).
  destruct (c a) eqn:E; [|reflexivity].
  destruct (H a (or_introl eq_refl) E) as [-> ->]. reflexivity.
Qed.

(** X1. Running the recalculation again changes nothing. *)
Theorem recalculate_game_chances_idempotent (p_game_id : uuid) (d d' : db) :
  recalculate_game_chances p_game_id d = Ok d' ->
  recalculate_game_chances p_game_id d' = Ok d'.
Proof.
  intro H. pose proof (participants_after_recalculate _ _ _ H) as Hp.
  unfold recalculate_game_chances in *.
  rewrite Hp, length_map, sum_gift_value_set_chance.
  apply bind_Ok in H as (n & Hn & H). rewrite Hn. simpl.
  injection H as <-. f_equal.
  unfold with_games, with_game_participants. simpl. f_equal.
  - apply update_where_idempotent; reflexivity.
  - apply update_where_idempotent; reflexivity.
Qed.


(** X3. With non-negative contribution values every recalculated chance lies
    between 0 and 100. *)
Theorem recalculated_chances_in_range (p_game_id : uuid) (d d' : db) :
  recalculate_game_chances p_game_id d = Ok d' ->
  Forall (fun gp => 0 <= GameParticipants.gift_value gp)%Q (participants_of p_game_id d) ->
  Forall (fun gp => 0 <= GameParticipants.chance_percentage gp /\
                    GameParticipants.chance_percentage gp <= 100)%Q
         (participants_of p_game_id d').
Proof.
  intros H Hpos. rewrite (participants_after_recalculate _ _ _ H).
  rewrite Forall_map. rewrite Forall_forall in *. intros gp Hin. simpl.
  set (T := sum_gift_value (participants_of p_game_id d)).
  assert (Hv : (0 <= GameParticipants.gift_value gp)%Q) by (apply Hpos; exact Hin).
  assert (Hle : (GameParticipants.gift_value gp <= T)%Q).
  { apply SUM_member_le.
    - rewrite Forall_map, Forall_forall. exact Hpos.
    - apply in_map. exact Hin. }
  unfold chance_of. destruct (Qpositive T) eqn:E; [|split; lra].
  apply Qpositive_iff in E.
  destruct (numeric_div_unit (GameParticipants.gift_value gp) T Hv Hle E) as [H0 H1].
  split; lra.
Qed.

(** ** [add_gifts_to_game] *)

Lemma submission_shape now g p sels col pos name d d' :
  add_gifts_to_game now g p sels col pos name d = Ok d' ->
  sels = [] /\
  exists gp,
    participant_of g p d = Some gp /\
    game_exists g d = true /\ player_exists p d = true /\
    d' = settled now g p name gp d.
Proof.
  intro H. pose proof (deadline_after_submission _ _ _ _ _ _ _ _ _ H) as (Hex & _).
  apply add_gifts_to_game_inv in H as (-> & gp & d4 & Hf & H4 & Hlog).
  split; [reflexivity|]. exists gp. split; [exact Hf|]. split; [exact Hex|].
  apply recalculate_game_chances_Ok in H4. subst d4.
  unfold insert_join_log in Hlog.
  destruct (game_exists g _); [|discriminate].
  destruct (player_exists p _) eqn:Ep; [|discriminate].
  simpl in Hlog. injection Hlog as <-. split; [|reflexivity].
  rewrite <- Ep. destruct (2 <=? _); reflexivity.
Qed.

Lemma map_update_where {A B : Type} (g : A -> B) (c : A -> bool) (f : A -> A) (l : list A) :
  (forall x, g (f x) = g x) -> map g (update_where c f l) = map g l.
Proof.
  intro H. unfold update_where. rewrite map_map. apply map_ext. intro x.
  destruct (c x); [apply H | reflexivity].
Qed.

Lemma in_game_of_participant g p gp :
  is_participant g p gp = true -> in_game g gp = true.
Proof.
  unfold is_participant, in_game. intro H. apply andb_true_iff in H. tauto.
Qed.

Lemma same_id_same_row (l : list GameParticipants.Row) (x y : GameParticipants.Row) :
  NoDup (map GameParticipants.id l) -> In x l -> In y l ->
  GameParticipants.id x = GameParticipants.id y -> x = y.
Proof.
  induction l as [|a l IH]; [contradiction|].
  simpl. intros Hnd Hx Hy E. inversion Hnd as [|? ? Hna Hnd']; subst.
  destruct Hx as [->|Hx], Hy as [->|Hy]; auto.
  - exfalso. apply Hna. rewrite E. apply in_map. exact Hy.
  - exfalso. apply Hna. rewrite <- E. apply in_map. exact Hx.
Qed.

(** With the primary key in place, the final [UPDATE] of a submission
    without a selection writes to the player's row what it holds. *)
Lemma rewrite_participant_same g p gp d :
  participant_ids_ok d -> participant_of g p d = Some gp ->
  rewrite_participant gp d = d.
Proof.
  intros [Hnd _] Hf. apply find_some in Hf as (Hin & _).
  unfold rewrite_participant.
  assert (E : update_where (fun r => GameParticipants.id r =? GameParticipants.id gp)
                (GameParticipants.set_gifts (GameParticipants.gift_value gp)
                   (GameParticipants.gifts_array gp))
                (game_participants d) = game_participants d).
  { unfold update_where. rewrite <- (map_id (game_participants d)) at 2.
    apply map_ext_in. intros x Hx.
    destruct (GameParticipants.id x =? GameParticipants.id gp) eqn:E; [|reflexivity].
    apply Z.eqb_eq in E.
    rewrite (same_id_same_row _ x gp Hnd Hx Hin E). destruct gp; reflexivity. }
  rewrite E. destruct d; reflexivity.
Qed.

Lemma settled_participants now g p name gp d :
  game_participants (settled now g p name gp d)
  = update_where (in_game g)
      (fun r => GameParticipants.set_chance_percentage
                  (chance_of (sum_gift_value (participants_of g (rewrite_participant gp d))) r) r)
      (game_participants (rewrite_participant gp d)).
Proof.
  unfold settled. cbv zeta. destruct (2 <=? _); reflexivity.
Qed.

Lemma settled_frame now g p name gp d :
  uuid_supply (settled now g p name gp d) = uuid_supply d /\
  players (settled now g p name gp d) = players d /\
  gifts (settled now g p name gp d) = gifts d /\
  player_gifts (settled now g p name gp d) = player_gifts d /\
  game_participant_gifts (settled now g p name gp d) = game_participant_gifts d /\
  match_history (settled now g p name gp d) = match_history d /\
  game_logs (settled now g p name gp d)
  = game_logs d ++
      [ {| GameLogs.game_id := g; GameLogs.player_id := Some p;
           GameLogs.log_type := "join";
           GameLogs.message := added_gifts name (GameParticipants.gift_value gp) |} ].
Proof.
  unfold settled. cbv zeta. destruct (2 <=? _); repeat split.
Qed.

Lemma length_update_where {A : Type} (c : A -> bool) (f : A -> A) (l : list A) :
  List.length (update_where c f l) = List.length l.
Proof. apply length_map. Qed.

(** X4. A submission succeeds exactly when it carries no selection and comes
    from a player who already holds a row in the session, the session
    and the player existing: every submission with a selection and
    every first submission of a player is refused. *)
Theorem submission_succeeds_iff now g p sels col pos name d :
  participant_count g d <= 2147483647 ->
  is_ok (add_gifts_to_game now g p sels col pos name d) = true <->
  sels = [] /\ participant_of g p d <> None /\
  game_exists g d = true /\ player_exists p d = true.
Proof.
  intro Hn. split.
  - destruct (add_gifts_to_game now g p sels col pos name d) as [d'|e] eqn:H;
      [|discriminate].
    intros _. apply submission_shape in H as (-> & gp & Hf & Hg & Hp & _).
    rewrite Hf. repeat split; try assumption. discriminate.
  - intros (-> & Hf & Hg & Hp).
    destruct (participant_of g p d) as [gp|] eqn:Ef; [|congruence].
    unfold add_gifts_to_game, find_or_insert_participant.
    unfold participant_of in Ef. rewrite Ef. cbn [bind process_selections].
    cbn [store_gifts v_current_gift_value v_current_gifts_array].
    fold (rewrite_participant gp d).
    assert (Hlen : Z.of_nat (List.length (participants_of g (rewrite_participant gp d)))
                   = participant_count g d).
    { rewrite rewrite_participant_of, length_update_where. reflexivity. }
    assert (Hint : int4 (participant_count g d) = Ok (participant_count g d)).
    { unfold int4. unfold participant_count in *.
      destruct (-2147483648 <=? _) eqn:E1; [|apply Z.leb_gt in E1; lia].
      destruct (_ <=? 2147483647) eqn:E2; [|apply Z.leb_gt in E2; lia].
      reflexivity. }
    cbn [bind]. unfold recalculate_game_chances. cbv zeta. rewrite Hlen, Hint. cbn [bind].
    match goal with |- context [int4 ?z] =>
      assert (E : z = participant_count g d) end.
    { unfold participants_of at 1. cbn [game_participants with_games with_game_participants].
      rewrite filter_update_where_same by reflexivity.
      rewrite length_map. exact Hlen. }
    rewrite E, Hint. cbn [bind]. unfold insert_join_log.
    match goal with |- context [game_exists g ?x && player_exists p ?x] =>
      assert (E1 : game_exists g x = true /\ player_exists p x = true) end.
    { split.
      - unfold game_exists in *. destruct (2 <=? _); simpl; unfold update_where;
          rewrite ?existsb_map_preserving; try exact Hg; intro x;
          try (destruct (_ && _); reflexivity);
          destruct (Games.id x =? g) eqn:Ex; simpl; rewrite ?Ex; reflexivity.
      - destruct (2 <=? _); exact Hp. }
    destruct E1 as [-> ->]. reflexivity.
Qed.

(** X5. The primary key of the participants is kept, and the participants of
    every other session are left exactly as they were. *)
Theorem submission_stays_in_its_session now g p sels col pos name d d' :
  participant_ids_ok d ->
  add_gifts_to_game now g p sels col pos name d = Ok d' ->
  participant_ids_ok d' /\
  forall g2, g2 <> g -> participants_of g2 d' = participants_of g2 d.
Proof.
  intros Hok H.
  apply submission_shape in H as (_ & gp & Hf & _ & _ & ->).
  destruct (settled_frame now g p name gp d) as (Hs & _).
  pose proof (settled_participants now g p name gp d) as Hp.
  rewrite (rewrite_participant_same _ _ _ _ Hok Hf) in Hp.
  destruct Hok as [Hnd Hlt]. split.
  - unfold participant_ids_ok. rewrite Hs, Hp. split.
    + rewrite map_update_where by reflexivity. exact Hnd.
    + rewrite Forall_forall in *. intros x Hx.
      unfold update_where in Hx.
      apply in_map_iff in Hx as (r & <- & Hr). specialize (Hlt r Hr).
      destruct (in_game g r); exact Hlt.
  - intros g2 Hg2. unfold participants_of at 1. rewrite Hp.
    apply filter_update_where_other.
    intros x _ Hx. unfold in_game in *. simpl.
    apply Z.eqb_eq in Hx. rewrite Hx.
    assert (E : (g =? g2) = false) by (apply Z.eqb_neq; congruence).
    rewrite E. auto.
Qed.

Lemma recorded_totals_after_submission now g p sels col pos name d d' :
  add_gifts_to_game now g p sels col pos name d = Ok d' ->
  exists session,
    get_game g d' = Some session /\
    Games.total_pot_balance session = sum_gift_value (participants_of g d') /\
    Games.total_players session = participant_count g d'.
Proof.
  intro H. pose proof (deadline_after_submission _ _ _ _ _ _ _ _ _ H) as (_ & Hex & _).
  apply add_gifts_to_game_inv in H as (_ & gp & d4 & _ & H4 & Hlog).
  apply insert_join_log_Ok in Hlog as (_ & _ & Hgames & Hparts & _).
  assert (Hp : participants_of g d' = participants_of g d4).
  { unfold participants_of. rewrite Hparts. destruct (2 <=? _); reflexivity. }
  apply existsb_find in Hex as (session & Hs). exists session.
  split; [exact Hs|].
  apply find_some in Hs as (Hin & Hid). apply Z.eqb_eq in Hid.
  rewrite Hgames in Hin.
  apply pot_after_countdown_step in Hin as (r & Hr & Hidr & Hpot & Hn & _).
  destruct (pot_after_recalculate g _ d4 r H4 Hr) as (Ep & En); [congruence|].
  unfold participant_count. rewrite Hp, Hpot, Hn, Ep, En.
  rewrite (participants_after_recalculate _ _ _ H4).
  rewrite sum_gift_value_set_chance, length_map. split; reflexivity.
Qed.

(** X6. A successful submission credits nothing.  With the primary key in
    place it leaves every contribution value and every gift array, the
    wallets and the per-gift ledger as they were, and the pot it records
    is the sum of the session's contribution values before it. *)
Theorem successful_submission_credits_nothing now g p sels col pos name d d' :
  participant_ids_ok d ->
  add_gifts_to_game now g p sels col pos name d = Ok d' ->
  map GameParticipants.gift_value (game_participants d')
  = map GameParticipants.gift_value (game_participants d) /\
  map GameParticipants.gifts_array (game_participants d')
  = map GameParticipants.gifts_array (game_participants d) /\
  player_gifts d' = player_gifts d /\
  game_participant_gifts d' = game_participant_gifts d /\
  exists session,
    get_game g d' = Some session /\
    Games.total_pot_balance session = sum_gift_value (participants_of g d).
Proof.
  intros Hok H.
  destruct (recorded_totals_after_submission _ _ _ _ _ _ _ _ _ H) as (s & Hs & Hpot & _).
  apply submission_shape in H as (_ & gp & Hf & _ & _ & ->).
  destruct (settled_frame now g p name gp d) as (_ & _ & _ & Hw & Hl & _).
  pose proof (settled_participants now g p name gp d) as Hp.
  rewrite (rewrite_participant_same _ _ _ _ Hok Hf) in Hp.
  rewrite Hp, !map_update_where by reflexivity.
  repeat split; try assumption.
  exists s. split; [exact Hs|]. rewrite Hpot.
  unfold participants_of at 1. rewrite Hp.
  rewrite filter_update_where_same by reflexivity.
  apply sum_gift_value_set_chance.
Qed.

(** X7. The submission appends one log line to the log and keeps the earlier
    lines: a [join] line of the session and the player that reports the
    participant's accumulated value after the submission, not the
    amount just added. *)
Theorem submission_appends_join_log now g p sels col pos name d d' :
  add_gifts_to_game now g p sels col pos name d = Ok d' ->
  exists gp',
    participant_of g p d' = Some gp' /\
    game_logs d'
    = game_logs d ++
        [ {| GameLogs.game_id := g; GameLogs.player_id := Some p;
             GameLogs.log_type := "join";
             GameLogs.message :=
               added_gifts name (GameParticipants.gift_value gp') |} ].
Proof.
  intro H.
  apply submission_shape in H as (_ & gp & Hf & _ & _ & ->).
  destruct (settled_frame now g p name gp d) as (_ & _ & _ & _ & _ & _ & Hlog).
  set (T := sum_gift_value (participants_of g (rewrite_participant gp d))).
  set (gp1 := GameParticipants.set_gifts (GameParticipants.gift_value gp)
                (GameParticipants.gifts_array gp) gp).
  exists (GameParticipants.set_chance_percentage (chance_of T gp1) gp1).
  split.
  - unfold participant_of in *. rewrite settled_participants.
    unfold rewrite_participant. cbn [game_participants with_game_participants].
    unfold update_where. rewrite map_map.
    rewrite find_map_preserving.
    + rewrite Hf. simpl. rewrite Z.eqb_refl.
      apply find_some in Hf as (_ & Hkey). apply in_game_of_participant in Hkey.
      unfold in_game in *. simpl. rewrite Hkey. reflexivity.
    + intro x. destruct (GameParticipants.id x =? GameParticipants.id gp);
        match goal with |- context [if in_game g ?y then _ else _] =>
          destruct (in_game g y) end; reflexivity.
  - rewrite Hlog. reflexivity.
Qed.

(** X8. A submission never changes the status, the round number, the winner
    or the completion time of any session, and leaves the rows of the
    other sessions exactly as they were; it records the number of
    participant rows of its session. *)
Theorem submission_keeps_session_status now g p sels col pos name d d' :
  add_gifts_to_game now g p sels col pos name d = Ok d' ->
  map Games.id (games d') = map Games.id (games d) /\
  map Games.status (games d') = map Games.status (games d) /\
  map Games.roll_number (games d') = map Games.roll_number (games d) /\
  map Games.winner_player_id (games d') = map Games.winner_player_id (games d) /\
  map Games.completed_at (games d') = map Games.completed_at (games d) /\
  other_games g d' = other_games g d /\
  exists session,
    get_game g d' = Some session /\
    Games.total_players session = participant_count g d'.
Proof.
  intro H.
  destruct (recorded_totals_after_submission _ _ _ _ _ _ _ _ _ H) as (s & Hs & _ & Hn).
  apply submission_shape in H as (_ & gp & _ & _ & _ & ->).
  assert (Hg : exists (b : bool),
             games (settled now g p name gp d)
             = (if b then
                  update_where
                    (fun r => (Games.id r =? g) &&
                       match Games.countdown_ends_at r with
                       | None => true | Some _ => false end)
                    (fun r => Games.set_countdown_ends_at
                                (Some match Games.countdown_ends_at r with
                                      | Some t => t | None => now + 60 end) r)
                else (fun l => l))
                 (update_where (fun r => Games.id r =? g)
                    (Games.set_totals
                       (sum_gift_value (participants_of g (rewrite_participant gp d)))
                       (Z.of_nat (List.length (participants_of g (rewrite_participant gp d)))))
                    (games d))).
  { unfold settled. cbv zeta.
    destruct (2 <=? _); [exists true | exists false]; reflexivity. }
  destruct Hg as (b & Hg). rewrite Hg. unfold other_games. rewrite Hg.
  repeat split; try (destruct b; rewrite ?map_update_where by reflexivity; reflexivity).
  - destruct b.
    + rewrite filter_update_where_other
        by (intros x _ Hx; apply andb_true_iff in Hx as [Hx _]; simpl; rewrite Hx; auto).
      apply filter_update_where_other. intros x _ Hx. simpl. rewrite Hx. auto.
    + apply filter_update_where_other. intros x _ Hx. simpl. rewrite Hx. auto.
  - exists s. split; assumption.
Qed.

(** ** [completeGame] *)

Lemma or_default_nonempty (a : option string) (b : string) :
  b <> EmptyString -> or_default a b <> EmptyString.
Proof.
  intro Hb. unfold or_default, truthy. destruct a as [[|c s]|]; try exact Hb.
  discriminate.
Qed.

(** X12. [completeGame] pays nothing out and touches neither the players nor
    the stakes: whatever it returns, the players, the participants, the
    wallets, the item types, the ledger and the log are as before, the
    earlier history entries are kept, and no session row is added or
    removed. *)
Theorem completeGame_pays_nothing_out now g w c pot d :
  let d' := fst (completeGame now g w c pot d) in
  players d' = players d /\
  game_participants d' = game_participants d /\
  player_gifts d' = player_gifts d /\
  gifts d' = gifts d /\
  game_participant_gifts d' = game_participant_gifts d /\
  game_logs d' = game_logs d /\
  map Games.id (games d') = map Games.id (games d) /\
  map Games.total_pot_balance (games d') = map Games.total_pot_balance (games d) /\
  firstn (List.length (match_history d)) (match_history d') = match_history d.
Proof.
  unfold completeGame.
  destruct (filter _ (players d)) as [|wd [|? ?]];
    try (simpl; repeat split; apply firstn_all).
  destruct (filter _ (games (with_games _ d))) as [|data [|? ?]];
    [| destruct c |];
    simpl; repeat split;
    try (apply map_update_where; reflexivity);
    try apply firstn_all.
  rewrite firstn_app, firstn_all, Nat.sub_diag. simpl. apply app_nil_r.
Qed.

(** X13. The error paths of [completeGame].  With no single player row for
    the winner it throws PGRST116 and leaves every table as it was.  With
    the winner and the session in place but a chance that is not a
    finite number, the session is left completed and the history
    unwritten. *)
Theorem completeGame_error_paths now g w pot d :
  (List.length (filter (fun p => Players.id p =? w) (players d)) <> 1%nat ->
   forall c, completeGame now g w c pot d = (d, Some PGRST116)) /\
  (List.length (filter (fun p => Players.id p =? w) (players d)) = 1%nat ->
   forall data, game_rows g d = [data] ->
   exists d',
     completeGame now g w None pot d = (d', Some not_null_violation) /\
     game_rows g d' = [Games.set_completed w now data] /\
     match_history d' = match_history d).
Proof.
  split.
  - intros Hn c. unfold completeGame.
    destruct (filter _ (players d)) as [|wd [|? ?]]; try reflexivity.
    simpl in Hn. congruence.
  - intros H1 data Hg. unfold completeGame.
    destruct (filter _ (players d)) as [|wd [|? ?]]; try discriminate.
    cbn [games with_games]. unfold game_rows in Hg.
    rewrite filter_update_where_same by reflexivity. rewrite Hg. cbn [map].
    eexists. split; [reflexivity|]. split; [|reflexivity].
    unfold game_rows. cbn [games with_games].
    rewrite filter_update_where_same by reflexivity. rewrite Hg. reflexivity.
Qed.

(** X14. What a successful [completeGame] archives: one entry, appended, with
    the winner it was given, a winner name that is never empty, the
    chance and the pot it was given, and the session's participants as
    they are at that moment. *)
Theorem completeGame_archives_one_entry now g w c pot d d' :
  completeGame now g w c pot d = (d', None) ->
  exists m,
    match_history d' = match_history d ++ [m] /\
    MatchHistory.game_id m = g /\
    MatchHistory.winner_player_id m = w /\
    MatchHistory.winner_name m <> EmptyString /\
    Some (MatchHistory.winner_chance m) = c /\
    MatchHistory.total_pot m = pot /\
    MatchHistory.timestamp m = now /\
    map snap_player_id (MatchHistory.players_snapshot m)
    = map GameParticipants.player_id (participants_of g d) /\
    map snap_gift_value (MatchHistory.players_snapshot m)
    = map GameParticipants.gift_value (participants_of g d) /\
    map snap_player_name (MatchHistory.players_snapshot m)
    = map GameParticipants.player_name (participants_of g d).
Proof.
  intro H. apply completeGame_Ok in H as (wd & data & ch & _ & -> & _ & ->).
  eexists. split; [reflexivity|]. simpl. repeat split.
  - apply or_default_nonempty, or_default_nonempty. discriminate.
  - rewrite map_map. reflexivity.
  - rewrite map_map. reflexivity.
  - rewrite map_map. reflexivity.
Qed.

(** ** Players *)

Lemma filter_update_where_hit {A : Type} (c : A -> bool) (set : A -> A) (l : list A) :
  (forall x, c x = true -> c (set x) = true) ->
  filter c (update_where c set l) = map set (filter c l).
Proof.
  intro Hc. induction l as [|a l IH]; simpl; [reflexivity|].
  destruct (c a) eqn:E; simpl.
  - rewrite (Hc a E), IH. reflexivity.
  - rewrite E, IH. reflexivity.
Qed.

Lemma filter_telegram_absent tg (l : list Players.Row) :
  ~ In tg (map Players.telegram_user_id l) ->
  filter (fun p => Players.telegram_user_id p =? tg) l = [].
Proof.
  intro H. induction l as [|a l IH]; [reflexivity|]. simpl.
  destruct (Players.telegram_user_id a =? tg) eqn:E.
  - exfalso. apply H. left. apply Z.eqb_eq. exact E.
  - apply IH. intro Hin. apply H. right. exact Hin.
Qed.

Lemma filter_telegram_unique tg (l : list Players.Row) :
  NoDup (map Players.telegram_user_id l) ->
  existsb (fun p => Players.telegram_user_id p =? tg) l = true ->
  exists p, filter (fun p => Players.telegram_user_id p =? tg) l = [p] /\ In p l.
Proof.
  induction l as [|a l IH]; simpl; [discriminate|].
  intros Hnd Hex. inversion Hnd as [|? ? Hna Hnd']; subst.
  destruct (Players.telegram_user_id a =? tg) eqn:E.
  - apply Z.eqb_eq in E. rewrite E in Hna.
    rewrite (filter_telegram_absent tg l Hna). exists a. auto.
  - simpl in Hex. destruct (IH Hnd' Hex) as (p & Hp & Hin). exists p. auto.
Qed.

(** X15. The upsert of [initializePlayer] keeps the Telegram identifiers
    unique and the identifiers of the players in place, and adds at most
    one player.  A lookup by the Telegram identifier then returns a row
    in which every profile field that was sent holds the value sent, and
    every field that was not sent holds what the player's row held
    before, [NULL] for a new player. *)
Theorem initializePlayer_then_lookup tg u f l ph d :
  NoDup (telegram_ids d) ->
  let d' := initializePlayer tg u f l ph d in
  let before := getPlayerByTelegramId tg d in
  NoDup (telegram_ids d') /\
  firstn (List.length (players d)) (map Players.id (players d'))
  = map Players.id (players d) /\
  (List.length (players d') <= S (List.length (players d)))%nat /\
  exists row,
    getPlayerByTelegramId tg d' = Some row /\
    Players.telegram_user_id row = tg /\
    Players.username row = sent u (stored Players.username before) /\
    Players.first_name row = sent f (stored Players.first_name before) /\
    Players.last_name row = sent l (stored Players.last_name before) /\
    Players.photo_url row = sent ph (stored Players.photo_url before).
Proof.
  intros Hnd d' before. subst d' before. unfold initializePlayer, telegram_ids in *.
  cbv zeta.
  destruct (existsb _ (players d)) eqn:Ex; simpl.
  - match goal with |- context [update_where _ ?m _] => set (merged := m) end.
    assert (Hids : map Players.telegram_user_id
                     (update_where (fun p => Players.telegram_user_id p =? tg)
                        merged (players d))
                   = map Players.telegram_user_id (players d)).
    { unfold update_where. rewrite map_map. apply map_ext. intro x.
      destruct (Players.telegram_user_id x =? tg) eqn:E; [|reflexivity].
      apply Z.eqb_eq in E. simpl. congruence. }
    split; [rewrite Hids; exact Hnd|]. split.
    { rewrite map_update_where by reflexivity.
      rewrite <- (length_map Players.id). apply firstn_all. }
    split.
    { unfold update_where. rewrite length_map. lia. }
    destruct (filter_telegram_unique tg (players d) Hnd Ex) as (p & Hp & _).
    unfold getPlayerByTelegramId. simpl.
    rewrite filter_update_where_hit.
    + rewrite Hp. simpl. eexists. split; [reflexivity|]. simpl. repeat split.
    + intros x _. simpl. apply Z.eqb_refl.
  - rewrite map_app. simpl.
    assert (Hno : ~ In tg (map Players.telegram_user_id (players d))).
    { intro Hin. apply in_map_iff in Hin as (x & Hx & Hin).
      assert (existsb (fun p => Players.telegram_user_id p =? tg) (players d) = true).
      { apply existsb_exists. exists x. split; [exact Hin | apply Z.eqb_eq; exact Hx]. }
      congruence. }
    split.
    { apply Permutation_NoDup with (l := tg :: map Players.telegram_user_id (players d)).
      - apply Permutation_cons_append.
      - constructor; [exact Hno | exact Hnd]. }
    split.
    { rewrite map_app, firstn_app, <- (length_map Players.id), firstn_all, Nat.sub_diag.
      simpl. apply app_nil_r. }
    split.
    { rewrite length_app. simpl. lia. }
    unfold getPlayerByTelegramId. simpl. rewrite filter_app.
    rewrite (filter_telegram_absent tg (players d) Hno).
    simpl. rewrite Z.eqb_refl. eexists. split; [reflexivity|]. simpl.
    repeat split; match goal with |- ?x = sent ?x None => destruct x; reflexivity end.
Qed.

(** X16. The hook's [initializePlayer] finds or creates, and never rewrites a
    profile.  With unique Telegram identifiers it sets as current player
    a row of that identifier, leaves the store untouched when the player was
    there, and keeps the identifiers unique.  Where two rows share the
    identifier, the lookup returns nothing, the insert is refused, and
    the hook sets no current player. *)
Theorem hook_initializePlayer_finds_or_creates tg u f l ph d :
  (NoDup (telegram_ids d) ->
   exists row,
     snd (hook_initializePlayer tg u f l ph d) = Some row /\
     In row (players (fst (hook_initializePlayer tg u f l ph d))) /\
     Players.telegram_user_id row = tg /\
     NoDup (telegram_ids (fst (hook_initializePlayer tg u f l ph d))) /\
     (In tg (telegram_ids d) -> fst (hook_initializePlayer tg u f l ph d) = d)) /\
  ((2 <= List.length (filter (fun p => (Players.telegram_user_id p =? tg)%Z)
                        (players d)))%nat ->
   hook_initializePlayer tg u f l ph d = (d, None)).
Proof.
  unfold hook_initializePlayer, getPlayerByTelegramId, createPlayer, telegram_ids.
  split.
  - intro Hnd.
    destruct (existsb (fun p => Players.telegram_user_id p =? tg) (players d)) eqn:Ex.
    + destruct (filter_telegram_unique tg (players d) Hnd Ex) as (p & Hp & Hin).
      rewrite Hp. simpl. exists p. repeat split; auto.
      assert (In p (filter (fun p => Players.telegram_user_id p =? tg) (players d)))
        by (rewrite Hp; left; reflexivity).
      apply filter_In in H as [_ H]. apply Z.eqb_eq. exact H.
    + assert (Hno : ~ In tg (map Players.telegram_user_id (players d))).
      { intro Hin. apply in_map_iff in Hin as (x & Hx & Hin).
        assert (existsb (fun p => Players.telegram_user_id p =? tg) (players d) = true).
        { apply existsb_exists. exists x. split; [exact Hin | apply Z.eqb_eq; exact Hx]. }
        congruence. }
      rewrite (filter_telegram_absent tg (players d) Hno). simpl.
      eexists. split; [reflexivity|]. repeat split.
      * apply in_or_app. right. left. reflexivity.
      * rewrite map_app. simpl.
        apply Permutation_NoDup with (l := tg :: map Players.telegram_user_id (players d)).
        -- apply Permutation_cons_append.
        -- constructor; assumption.
      * intro Hin. contradiction.
  - intro H2.
    destruct (filter (fun p => Players.telegram_user_id p =? tg) (players d))
      as [|a [|b rest]] eqn:E; simpl in H2; try lia.
    assert (Hex : existsb (fun p => Players.telegram_user_id p =? tg) (players d) = true).
    { apply existsb_exists. exists a.
      assert (In a (filter (fun p => Players.telegram_user_id p =? tg) (players d)))
        by (rewrite E; left; reflexivity).
      apply filter_In in H. exact H. }
    rewrite Hex. reflexivity.
Qed.

(** ** [getCurrentGame] *)

Lemma waiting_games_app d l s :
  waiting_games (with_uuid_supply s (with_games (games d ++ l) d))
  = waiting_games d ++ filter is_waiting l.
Proof. unfold waiting_games. simpl. apply filter_app. Qed.

(** X18. [getCurrentGame] never opens a second waiting session: it leaves the
    store as it is when a waiting session exists and adds at most one
    otherwise; the session it returns is a waiting session of the
    resulting store, returned with the participants it has there. *)
Theorem getCurrentGame_single_open_session (rollNumber : Z) (d : db) :
  let d' := fst (getCurrentGame rollNumber d) in
  (List.length (waiting_games d') <= Nat.max 1 (List.length (waiting_games d)))%nat /\
  (waiting_games d <> [] -> d' = d) /\
  forall game parts,
    snd (getCurrentGame rollNumber d) = inr (Some (game, parts)) ->
    In game (waiting_games d') /\ parts = participants_of (Games.id game) d'.
Proof.
  unfold getCurrentGame.
  destruct (rev (waiting_games d)) as [|a l] eqn:E.
  - assert (Hw : waiting_games d = []).
    { rewrite <- (rev_involutive (waiting_games d)), E. reflexivity. }
    destruct (0 <? rollNumber); [destruct (existsb _ _)|]; cbn [fst snd]; rewrite ?Hw.
    + split; [simpl; lia|]. split; [congruence|]. discriminate.
    + split.
      * rewrite waiting_games_app, Hw. simpl. lia.
      * split; [congruence|]. intros game parts H. injection H as <- <-.
        split; [|reflexivity].
        rewrite waiting_games_app, Hw. left. reflexivity.
    + split; [simpl; lia|]. split; [congruence|]. discriminate.
  - cbn [fst snd]. split; [lia|]. split; [reflexivity|].
    intros game parts H. injection H as <- <-. split; [|reflexivity].
    apply in_rev. rewrite E. left. reflexivity.
Qed.

(** X19. A completed session is not handed out again: after a successful
    [completeGame] of a session, with the session identifiers behind the
    supply, no call of [getCurrentGame] returns that session. *)
Theorem completed_session_is_not_current now g w c pot d d' rollNumber :
  game_ids_ok d ->
  completeGame now g w c pot d = (d', None) ->
  forall game,
    returned_game (snd (getCurrentGame rollNumber d')) = Some game ->
    Games.id game <> g.
Proof.
  intros Hids H game Hr Hid.
  pose proof (completeGame_Ok _ _ _ _ _ _ _ H) as (wd & data & ch & _ & _ & Hrows & Hd').
  assert (Hgames : games d' = update_where (fun r => Games.id r =? g)
                                (Games.set_completed w now) (games d))
    by (rewrite Hd'; reflexivity).
  assert (Hsup : uuid_supply d' = uuid_supply d) by (rewrite Hd'; reflexivity).
  assert (Hcompleted : forall x, In x (games d') -> Games.id x = g ->
                                 is_waiting x = false).
  { intros x Hx Hxid. rewrite Hgames in Hx. unfold update_where in Hx.
    apply in_map_iff in Hx as (r & <- & _).
    destruct (Games.id r =? g) eqn:Er; [reflexivity|].
    apply Z.eqb_neq in Er. contradiction. }
  assert (Hex : In g (map Games.id (games d))).
  { rewrite game_rows_completed in Hrows.
    destruct (game_rows g d) as [|x [|? ?]] eqn:Eg; try discriminate.
    assert (Hx : In x (game_rows g d)) by (rewrite Eg; left; reflexivity).
    unfold game_rows in Hx. apply filter_In in Hx as [Hx Hxid].
    apply Z.eqb_eq in Hxid. rewrite <- Hxid. apply in_map. exact Hx. }
  unfold getCurrentGame in Hr.
  destruct (rev (waiting_games d')) as [|a l] eqn:E.
  - destruct (0 <? rollNumber); [destruct (existsb _ _)|]; simpl in Hr; try discriminate.
    injection Hr as <-. simpl in Hid.
    apply in_map_iff in Hex as (x & Hx & Hin).
    unfold game_ids_ok in Hids. rewrite Forall_forall in Hids.
    specialize (Hids x Hin). lia.
  - simpl in Hr. injection Hr as <-.
    assert (Ha : In a (waiting_games d')) by (apply in_rev; rewrite E; left; reflexivity).
    unfold waiting_games in Ha. apply filter_In in Ha as [Ha Hw].
    rewrite (Hcompleted a Ha Hid) in Hw. discriminate.
Qed.

(** ** [getGameLogs] *)

Lemma getGameLogs_after_append g d d' row :
  game_logs d' = game_logs d ++ [row] -> GameLogs.game_id row = g ->
  getGameLogs g d' = row :: firstn 19 (getGameLogs g d).
Proof.
  intros E Hg. unfold getGameLogs. rewrite E, filter_app. cbn [filter].
  rewrite Hg, Z.eqb_refl, rev_app_distr. cbn [rev app].
  rewrite (firstn_cons 19). f_equal. rewrite firstn_firstn. reflexivity.
Qed.

(** X20. The log read is bounded and shows the latest line first: it never
    returns more than 20 lines, and after [addGameLog] succeeded for the
    session the line just added is the first one returned, followed by
    the 19 lines that led the read before. *)
Theorem latest_log_comes_first g playerId type message d d' :
  addGameLog g playerId type message d = (d', None) ->
  (List.length (getGameLogs g d') <= 20)%nat /\
  getGameLogs g d'
  = {| GameLogs.game_id := g; GameLogs.player_id := playerId;
       GameLogs.log_type := type; GameLogs.message := message |}
    :: firstn 19 (getGameLogs g d).
Proof.
  intro H. split.
  - unfold getGameLogs. rewrite length_firstn. lia.
  - apply getGameLogs_after_append; [|reflexivity].
    unfold addGameLog in H. destruct (negb (game_exists g d)); [discriminate|].
    destruct (match playerId with Some p => negb (player_exists p d) | None => false end);
      [discriminate|].
    injection H as <-. reflexivity.
Qed.

(** ** [spinWheel] *)

Lemma addGameLog_frame g pl ty msg d :
  players (fst (addGameLog g pl ty msg d)) = players d /\
  games (fst (addGameLog g pl ty msg d)) = games d /\
  game_participants (fst (addGameLog g pl ty msg d)) = game_participants d /\
  player_gifts (fst (addGameLog g pl ty msg d)) = player_gifts d /\
  game_participant_gifts (fst (addGameLog g pl ty msg d)) = game_participant_gifts d /\
  match_history (fst (addGameLog g pl ty msg d)) = match_history d.
Proof.
  unfold addGameLog. destruct (negb _); [repeat split|].
  destruct (match pl with Some p => _ | None => _ end); repeat split.
Qed.

Lemma completeGame_frame now g w c pot d :
  players (fst (completeGame now g w c pot d)) = players d /\
  game_participants (fst (completeGame now g w c pot d)) = game_participants d /\
  player_gifts (fst (completeGame now g w c pot d)) = player_gifts d /\
  game_participant_gifts (fst (completeGame now g w c pot d)) = game_participant_gifts d.
Proof.
  unfold completeGame.
  destruct (filter _ (players d)) as [|wd [|? ?]];
    [repeat split | | repeat split].
  destruct (filter _ (games (with_games _ d))) as [|data [|? ?]];
    [| destruct c |]; repeat split.
Qed.

Lemma completeGame_history now g w c pot d :
  match_history (fst (completeGame now g w c pot d)) = match_history d \/
  exists m chance,
    match_history (fst (completeGame now g w c pot d)) = match_history d ++ [m] /\
    c = Some chance /\
    MatchHistory.game_id m = g /\
    MatchHistory.winner_player_id m = w /\
    MatchHistory.winner_chance m = chance /\
    MatchHistory.total_pot m = pot.
Proof.
  unfold completeGame.
  destruct (filter _ (players d)) as [|wd [|? ?]]; try (left; reflexivity).
  destruct (filter _ (games (with_games _ d))) as [|data [|? ?]];
    try (left; reflexivity).
  destruct c as [chance|]; [|left; reflexivity].
  right. eexists. exists chance. simpl. repeat split.
Qed.

(** X22. A spin moves no gift: whoever is drawn, the wallets, the stakes, the
    ledger and the players are after the spin what they were before; the
    pot is not paid out to the winner. *)
Theorem spinWheel_moves_no_gift random now st d o :
  WheelGame.spinWheel random now st d = Some o ->
  player_gifts (WheelGame.store o) = player_gifts d /\
  game_participants (WheelGame.store o) = game_participants d /\
  game_participant_gifts (WheelGame.store o) = game_participant_gifts d /\
  players (WheelGame.store o) = players d.
Proof.
  unfold WheelGame.spinWheel.
  destruct (_ <? 2)%nat; [discriminate|].
  destruct (WheelGame.isSpinning st); [discriminate|].
  set (d1 := match WheelGame.currentGameId st with
             | Some g => fst (addGameLog g None "spin" wheel_spinning d)
             | None => d
             end).
  assert (H1 : players d1 = players d /\ game_participants d1 = game_participants d /\
               player_gifts d1 = player_gifts d /\
               game_participant_gifts d1 = game_participant_gifts d).
  { subst d1. destruct (WheelGame.currentGameId st) as [g|]; [|repeat split].
    pose proof (addGameLog_frame g None "spin" wheel_spinning d). tauto. }
  destruct H1 as (Hp & Hgp & Hpg & Hl).
  destruct (WheelGame.selectWinner random (WheelGame.activePlayers st)) as [sel|];
    intro H; injection H as <-; simpl; [|tauto].
  destruct (WheelGame.currentGameId st) as [g|]; [|tauto].
  destruct (WheelGame.currentPlayer st) as [me|]; [|tauto].
  match goal with |- context [addGameLog ?a ?b ?c ?m (fst (completeGame ?n ?g' ?w ?ch ?pot ?x))] =>
    pose proof (addGameLog_frame a b c m (fst (completeGame n g' w ch pot x)))
      as (A1 & _ & A2 & A3 & A4 & _);
    pose proof (completeGame_frame n g' w ch pot x) as (C1 & C2 & C3 & C4)
  end.
  repeat split; congruence.
Qed.

(** X23. The winner a spin archives is the caller.  Whatever is drawn, a spin
    adds at most one history entry, and that entry names the current
    player of the client that ran the spin as winner, with the chance of
    the participant that was drawn and the sum of the gift values. *)
Theorem spinWheel_archives_the_caller random now st d o :
  WheelGame.spinWheel random now st d = Some o ->
  match_history (WheelGame.store o) = match_history d \/
  exists m me drawn g,
    match_history (WheelGame.store o) = match_history d ++ [m] /\
    WheelGame.currentPlayer st = Some me /\
    WheelGame.currentGameId st = Some g /\
    WheelGame.selectedWinner o = Some drawn /\
    MatchHistory.game_id m = g /\
    MatchHistory.winner_player_id m = Players.id me /\
    Some (MatchHistory.winner_chance m)
    = WheelGame.winnerChance_of drawn (WheelGame.activePlayers st) /\
    MatchHistory.total_pot m = WheelGame.totalGiftValue (WheelGame.activePlayers st).
Proof.
  unfold WheelGame.spinWheel.
  destruct (_ <? 2)%nat; [discriminate|].
  destruct (WheelGame.isSpinning st); [discriminate|].
  set (d1 := match WheelGame.currentGameId st with
             | Some g => fst (addGameLog g None "spin" wheel_spinning d)
             | None => d
             end).
  assert (H1 : match_history d1 = match_history d).
  { subst d1. destruct (WheelGame.currentGameId st) as [g|]; [|reflexivity].
    pose proof (addGameLog_frame g None "spin" wheel_spinning d). tauto. }
  destruct (WheelGame.selectWinner random (WheelGame.activePlayers st)) as [sel|];
    intro H; injection H as <-; simpl; [|left; exact H1].
  destruct (WheelGame.currentGameId st) as [g|] eqn:Eg; [|left; exact H1].
  destruct (WheelGame.currentPlayer st) as [me|] eqn:Eme; [|left; exact H1].
  match goal with |- context [addGameLog ?a ?b ?c ?m (fst (completeGame ?n ?g' ?w ?ch ?pot ?x))] =>
    pose proof (addGameLog_frame a b c m (fst (completeGame n g' w ch pot x)))
      as (_ & _ & _ & _ & _ & A);
    pose proof (completeGame_history n g' w ch pot x) as C
  end.
  rewrite A. destruct C as [C|(m & chance & C & Hc & Hg & Hw & Hch & Hpot)].
  - left. rewrite C. exact H1.
  - right. exists m, me, sel, g. rewrite C, H1.
    repeat split; try assumption. rewrite Hch. symmetry. exact Hc.
Qed.

(** ** The gift dialog *)

Lemma find_has_id_none_not_in i (l : list Selected.t) :
  find (has_id i) l = None -> ~ In i (map Selected.id l).
Proof.
  intros Hf Hin. apply in_map_iff in Hin as (x & Hx & Hin).
  apply (find_none _ _ Hf) in Hin. unfold has_id in Hin.
  rewrite Hx, Z.eqb_refl in Hin. discriminate.
Qed.

Lemma NoDup_map_filter {A B : Type} (f : A -> B) (c : A -> bool) (l : list A) :
  NoDup (map f l) -> NoDup (map f (filter c l)).
Proof.
  induction l as [|a l IH]; simpl; [auto|].
  intro H. inversion H as [|? ? Hna Hnd]; subst.
  destruct (c a); simpl; [|auto].
  constructor; [|auto]. intro Hin. apply Hna.
  apply in_map_iff in Hin as (x & Hx & Hin). apply filter_In in Hin as [Hin _].
  rewrite <- Hx. apply in_map. exact Hin.
Qed.

Lemma find_filter_other i j (l : list Selected.t) :
  j <> i ->
  find (has_id j) (filter (fun g => negb (has_id i g)) l) = find (has_id j) l.
Proof.
  intro Hji. induction l as [|a l IH]; simpl; [reflexivity|].
  destruct (has_id i a) eqn:Ei; simpl.
  - assert (E : has_id j a = false).
    { unfold has_id in *. apply Z.eqb_eq in Ei. apply Z.eqb_neq. congruence. }
    rewrite E. exact IH.
  - destruct (has_id j a); [reflexivity | exact IH].
Qed.

(** X26. [handleGiftSelection] keeps the selection well formed and does what
    it is asked.  One entry per item type, and no entry with quantity 0,
    stay so; after a call with a positive quantity the item type is
    selected with that quantity, after a call with 0 it is not selected,
    and the entries of the other item types are as before. *)
Theorem handleGiftSelection_updates_one_entry (giftId : uuid) (q : Z)
  (prev : list Selected.t) :
  NoDup (map Selected.id prev) ->
  Forall (fun g => Selected.quantity g <> 0) prev ->
  NoDup (map Selected.id (handleGiftSelection giftId q prev)) /\
  Forall (fun g => Selected.quantity g <> 0) (handleGiftSelection giftId q prev) /\
  (0 < q ->
   option_map Selected.quantity
     (find (has_id giftId) (handleGiftSelection giftId q prev)) = Some q) /\
  (q = 0 -> find (has_id giftId) (handleGiftSelection giftId q prev) = None) /\
  (forall j, j <> giftId ->
     find (has_id j) (handleGiftSelection giftId q prev) = find (has_id j) prev).
Proof.
  intros Hnd Hq. unfold handleGiftSelection.
  destruct (find (has_id giftId) prev) as [existing|] eqn:Ef.
  - destruct (q =? 0) eqn:E0.
    + apply Z.eqb_eq in E0. subst q. split; [apply NoDup_map_filter; exact Hnd|].
      split.
      { rewrite Forall_forall in *. intros x Hx. apply filter_In in Hx as [Hx _]. auto. }
      split; [lia|]. split.
      * intros _. destruct (find (has_id giftId) (filter _ prev)) as [x|] eqn:E;
          [|reflexivity].
        apply find_some in E as (Hin & Hx). apply filter_In in Hin as [_ Hn].
        rewrite Hx in Hn. discriminate.
      * intros j Hj. apply find_filter_other. exact Hj.
    + apply Z.eqb_neq in E0.
      set (h := fun g => if has_id giftId g
                         then {| Selected.id := Selected.id g; Selected.quantity := q |}
                         else g).
      assert (Hid : forall x, Selected.id (h x) = Selected.id x)
        by (intro x; unfold h; destruct (has_id giftId x); reflexivity).
      split.
      { rewrite map_map. rewrite (map_ext _ Selected.id Hid). exact Hnd. }
      split.
      { rewrite Forall_map. eapply Forall_impl; [|exact Hq].
        intros x Hx. unfold h. destruct (has_id giftId x); simpl; assumption. }
      split; [|split].
      * intros _. rewrite find_map_preserving
          by (intro x; unfold has_id; rewrite Hid; reflexivity).
        rewrite Ef. simpl. apply find_some in Ef as (_ & Hx).
        unfold h. rewrite Hx. reflexivity.
      * intro; contradiction.
      * intros j Hj. rewrite find_map_preserving
          by (intro x; unfold has_id; rewrite Hid; reflexivity).
        destruct (find (has_id j) prev) as [x|] eqn:Ej; [|reflexivity].
        simpl. apply find_some in Ej as (_ & Hx). unfold h, has_id in *.
        apply Z.eqb_eq in Hx.
        assert (E : (Selected.id x =? giftId) = false) by (apply Z.eqb_neq; congruence).
        rewrite E. reflexivity.
  - destruct (0 <? q) eqn:Eq.
    + apply Z.ltb_lt in Eq. split.
      { rewrite map_app. simpl.
        apply Permutation_NoDup with (l := giftId :: map Selected.id prev).
        - apply Permutation_cons_append.
        - constructor; [apply find_has_id_none_not_in; exact Ef | exact Hnd]. }
      split.
      { apply Forall_app. split; [exact Hq|]. constructor; [simpl; lia | constructor]. }
      split; [|split].
      * intros _. rewrite (find_app_none _ _ _ Ef). simpl.
        unfold has_id. simpl. rewrite Z.eqb_refl. reflexivity.
      * lia.
      * intros j Hj. destruct (find (has_id j) prev) as [x|] eqn:Ej.
        -- clear - Ej. induction prev as [|a l IH]; simpl in *; [discriminate|].
           destruct (has_id j a); [exact Ej | apply IH; exact Ej].
        -- rewrite (find_app_none _ _ _ Ej). simpl. unfold has_id. simpl.
           assert (E : (giftId =? j) = false) by (apply Z.eqb_neq; congruence).
           rewrite E. reflexivity.
    + split; [exact Hnd|]. split; [exact Hq|]. split.
      * apply Z.ltb_ge in Eq. lia.
      * split; [intros _; exact Ef | reflexivity].
Qed.

(** ** The local log and the countdown *)

Lemma firstn_app_firstn {A : Type} (n k : nat) (x y : list A) :
  (n <= List.length x + k)%nat ->
  firstn n (x ++ firstn k y) = firstn n (x ++ y).
Proof.
  revert n; induction x as [|a x IH]; intros n Hn; simpl in *.
  - rewrite firstn_firstn. f_equal. lia.
  - destruct n as [|n]; [reflexivity|]. simpl. f_equal. apply IH. lia.
Qed.

(** X28. The local log is a window on the last 20 messages: after any
    sequence of [addToLog] calls on an empty log it holds the 20 latest
    messages, latest first, and never more than 20. *)
Theorem addToLog_keeps_latest_20 {A : Type} (messages : list A) :
  fold_left (fun log m => addToLog m log) messages [] = firstn 20 (rev messages) /\
  (List.length (fold_left (fun log m => addToLog m log) messages []) <= 20)%nat.
Proof.
  assert (G : forall acc, (List.length acc <= 20)%nat ->
             fold_left (fun log m => addToLog m log) messages acc
             = firstn 20 (rev messages ++ acc)).
  { induction messages as [|m ms IH]; intros acc Hacc; cbn [fold_left rev].
    - cbn [app]. symmetry. apply firstn_all2. exact Hacc.
    - rewrite IH.
      + unfold addToLog. rewrite <- app_assoc.
        change (m :: firstn 19 acc) with ([m] ++ firstn 19 acc).
        change ([m] ++ acc) with ([m] ++ acc).
        rewrite !app_assoc. apply firstn_app_firstn.
        rewrite length_app. cbn [List.length]. lia.
      + unfold addToLog. cbn [List.length]. rewrite length_firstn. lia. }
  split.
  - rewrite G by (simpl; lia). rewrite app_nil_r. reflexivity.
  - rewrite G by (simpl; lia). rewrite length_firstn. lia.
Qed.

Lemma ticks_from (k : nat) (n : Z) :
  0 <= n -> ticks k (Some n) = Some (Z.max 0 (n - Z.of_nat k)).
Proof.
  revert n; induction k as [|k IH]; intros n Hn.
  - simpl. f_equal. lia.
  - cbn [ticks tick]. destruct (0 <? n) eqn:E.
    + apply Z.ltb_lt in E. rewrite IH by lia. f_equal. lia.
    + apply Z.ltb_ge in E. rewrite IH by lia. f_equal. lia.
Qed.

(** X29. The countdown runs down to 0 and stays there, and the wheel spins by
    itself exactly from the tick on that brings it to 0: after [k] ticks
    a countdown of [n] seconds shows [max 0 (n - k)], and the auto-spin
    condition holds if and only if [k >= n], no spin is running and at
    least two players are on the wheel. *)
Theorem countdown_runs_out (k : nat) (n : Z) (st : WheelGame.state) :
  0 <= n ->
  ticks k (Some n) = Some (Z.max 0 (n - Z.of_nat k)) /\
  (auto_spin (ticks k (Some n)) st = true <->
   n <= Z.of_nat k /\ WheelGame.isSpinning st = false /\
   (2 <= List.length (WheelGame.activePlayers st))%nat).
Proof.
  intro Hn. rewrite (ticks_from k n Hn). split; [reflexivity|].
  unfold auto_spin.
  destruct (Z.max 0 (n - Z.of_nat k)) as [|p|p] eqn:E.
  - rewrite andb_true_iff, negb_true_iff, Nat.leb_le. split.
    + intros [H1 H2]. repeat split; try assumption. lia.
    + intros (_ & H1 & H2). auto.
  - split; [discriminate|]. intros (H & _). lia.
  - lia.
Qed.

(** ** The properties above at the sample stores *)

Lemma recalculate_game_chances_idempotent_witness :
  recalculate_game_chances 100 recalculated_round = Ok recalculated_round.
Proof.
  apply (recalculate_game_chances_idempotent 100 unsettled_round recalculated_round).
  vm_compute. reflexivity.
Defined.


Lemma recalculated_chances_in_range_witness :
  Forall (fun gp => 0 <= GameParticipants.chance_percentage gp /\
                    GameParticipants.chance_percentage gp <= 100)%Q
         (participants_of 100 recalculated_round).
Proof.
  apply (recalculated_chances_in_range 100 unsettled_round recalculated_round).
  - vm_compute. reflexivity.
  - vm_compute. repeat constructor; discriminate.
Defined.

Lemma submission_succeeds_iff_witness :
  is_ok (add_gifts_to_game 20 100 1 [] "#FF6B6B" 0 "alice" quorum_round) = true <->
  @nil gift_selection = [] /\ participant_of 100 1 quorum_round <> None /\
  game_exists 100 quorum_round = true /\ player_exists 1 quorum_round = true.
Proof.
  apply (submission_succeeds_iff 20 100 1 [] "#FF6B6B" 0 "alice" quorum_round).
  vm_compute. discriminate.
Defined.

Lemma submission_stays_in_its_session_witness :
  participant_ids_ok alice_touches_quorum /\
  participants_of 101 alice_touches_quorum = participants_of 101 quorum_round.
Proof.
  destruct (submission_stays_in_its_session 20 100 1 [] "#FF6B6B" 0 "alice"
              quorum_round alice_touches_quorum) as [Hk Ho].
  - split; [vm_compute; repeat constructor; simpl; intuition discriminate
           | repeat constructor].
  - vm_compute. reflexivity.
  - split; [exact Hk | apply Ho; discriminate].
Defined.

Lemma successful_submission_credits_nothing_witness :
  map GameParticipants.gift_value (game_participants alice_touches_three_way)
  = map GameParticipants.gift_value (game_participants three_way_round) /\
  map GameParticipants.gifts_array (game_participants alice_touches_three_way)
  = map GameParticipants.gifts_array (game_participants three_way_round) /\
  player_gifts alice_touches_three_way = player_gifts three_way_round /\
  game_participant_gifts alice_touches_three_way
  = game_participant_gifts three_way_round /\
  exists session,
    get_game 100 alice_touches_three_way = Some session /\
    Games.total_pot_balance session
    = sum_gift_value (participants_of 100 three_way_round).
Proof.
  apply (successful_submission_credits_nothing 40 100 1 [] "#FF6B6B" 0 "alice"
           three_way_round alice_touches_three_way).
  - split; [vm_compute; repeat constructor; simpl; intuition discriminate
           | repeat constructor].
  - vm_compute. reflexivity.
Defined.

Lemma submission_appends_join_log_witness :
  exists gp',
    participant_of 100 1 alice_touches_quorum = Some gp' /\
    game_logs alice_touches_quorum
    = game_logs quorum_round ++
        [ {| GameLogs.game_id := 100; GameLogs.player_id := Some 1;
             GameLogs.log_type := "join";
             GameLogs.message :=
               added_gifts "alice" (GameParticipants.gift_value gp') |} ].
Proof.
  apply (submission_appends_join_log 20 100 1 [] "#FF6B6B" 0 "alice"
           quorum_round alice_touches_quorum).
  vm_compute. reflexivity.
Defined.

Lemma submission_keeps_session_status_witness :
  map Games.id (games alice_touches_quorum) = map Games.id (games quorum_round) /\
  map Games.status (games alice_touches_quorum) = map Games.status (games quorum_round) /\
  map Games.roll_number (games alice_touches_quorum)
  = map Games.roll_number (games quorum_round) /\
  map Games.winner_player_id (games alice_touches_quorum)
  = map Games.winner_player_id (games quorum_round) /\
  map Games.completed_at (games alice_touches_quorum)
  = map Games.completed_at (games quorum_round) /\
  other_games 100 alice_touches_quorum = other_games 100 quorum_round /\
  exists session,
    get_game 100 alice_touches_quorum = Some session /\
    Games.total_players session = participant_count 100 alice_touches_quorum.
Proof.
  apply (submission_keeps_session_status 20 100 1 [] "#FF6B6B" 0 "alice"
           quorum_round alice_touches_quorum).
  vm_compute. reflexivity.
Defined.

Lemma completeGame_error_paths_witness :
  completeGame 90 100 99 (Some 70%Q) 100%Q two_player_round
  = (two_player_round, Some PGRST116) /\
  exists d' data,
    game_rows 100 two_player_round = [data] /\
    completeGame 90 100 2 None 100%Q two_player_round = (d', Some not_null_violation) /\
    game_rows 100 d' = [Games.set_completed 2 90 data] /\
    match_history d' = match_history two_player_round.
Proof.
  destruct (completeGame_error_paths 90 100 99 100%Q two_player_round) as [H1 _].
  destruct (completeGame_error_paths 90 100 2 100%Q two_player_round) as [_ H2].
  split.
  - apply H1. vm_compute. discriminate.
  - assert (Hd : exists data, game_rows 100 two_player_round = [data])
      by (eexists; vm_compute; reflexivity).
    destruct Hd as (data & Hd).
    assert (Hl : List.length (filter (fun p => Players.id p =? 2) (players two_player_round))
                 = 1%nat) by (vm_compute; reflexivity).
    destruct (H2 Hl data Hd) as (d' & E & Hg & Hh).
    exists d', data. auto.
Defined.

Lemma completeGame_archives_one_entry_witness :
  exists m,
    match_history completed_round = match_history two_player_round ++ [m] /\
    MatchHistory.game_id m = 100 /\
    MatchHistory.winner_player_id m = 2 /\
    MatchHistory.winner_name m <> EmptyString /\
    Some (MatchHistory.winner_chance m) = Some 70%Q /\
    MatchHistory.total_pot m = 100%Q /\
    MatchHistory.timestamp m = 90 /\
    map snap_player_id (MatchHistory.players_snapshot m)
    = map GameParticipants.player_id (participants_of 100 two_player_round) /\
    map snap_gift_value (MatchHistory.players_snapshot m)
    = map GameParticipants.gift_value (participants_of 100 two_player_round) /\
    map snap_player_name (MatchHistory.players_snapshot m)
    = map GameParticipants.player_name (participants_of 100 two_player_round).
Proof.
  apply (completeGame_archives_one_entry 90 100 2 (Some 70%Q) 100%Q
           two_player_round completed_round).
  vm_compute. reflexivity.
Defined.

Lemma initializePlayer_then_lookup_witness :
  NoDup (telegram_ids bob_returns) /\
  firstn (List.length (players two_player_round)) (map Players.id (players bob_returns))
  = map Players.id (players two_player_round) /\
  (List.length (players bob_returns) <= S (List.length (players two_player_round)))%nat /\
  exists row,
    getPlayerByTelegramId 1002 bob_returns = Some row /\
    Players.telegram_user_id row = 1002 /\
    Players.username row
    = sent None (stored Players.username (getPlayerByTelegramId 1002 two_player_round)) /\
    Players.first_name row
    = sent (Some "Robert"%string)
        (stored Players.first_name (getPlayerByTelegramId 1002 two_player_round)) /\
    Players.last_name row
    = sent None (stored Players.last_name (getPlayerByTelegramId 1002 two_player_round)) /\
    Players.photo_url row
    = sent None (stored Players.photo_url (getPlayerByTelegramId 1002 two_player_round)).
Proof.
  apply (initializePlayer_then_lookup 1002 None (Some "Robert"%string) None None
           two_player_round).
  vm_compute. repeat constructor; simpl; intuition discriminate.
Defined.

Lemma hook_initializePlayer_finds_or_creates_witness :
  (exists row,
     snd (hook_initializePlayer 1005 (Some "dan"%string) None None None empty_round)
     = Some row /\
     In row (players (fst (hook_initializePlayer 1005 (Some "dan"%string) None None None
                             empty_round))) /\
     Players.telegram_user_id row = 1005) /\
  hook_initializePlayer 1001 (Some "alice"%string) None None None alice_twice
  = (alice_twice, None).
Proof.
  destruct (hook_initializePlayer_finds_or_creates 1005 (Some "dan"%string) None None None
              empty_round) as [H1 _].
  destruct (hook_initializePlayer_finds_or_creates 1001 (Some "alice"%string) None None None
              alice_twice) as [_ H2].
  split.
  - destruct H1 as (row & Hr & Hin & Ht & _).
    + vm_compute. repeat constructor; simpl; intuition discriminate.
    + exists row. auto.
  - apply H2. vm_compute. repeat constructor.
Defined.

Lemma completed_session_is_not_current_witness :
  exists game,
    returned_game (snd (getCurrentGame 8344 completed_round)) = Some game /\
    Games.id game <> 100.
Proof.
  eexists. split; [vm_compute; reflexivity|].
  apply (completed_session_is_not_current 90 100 2 (Some 70%Q) 100%Q
           two_player_round completed_round 8344).
  - vm_compute. repeat constructor.
  - vm_compute. reflexivity.
  - vm_compute. reflexivity.
Defined.

Lemma latest_log_comes_first_witness :
  (List.length (getGameLogs 100 line_logged) <= 20)%nat /\
  getGameLogs 100 line_logged
  = {| GameLogs.game_id := 100; GameLogs.player_id := Some 1;
       GameLogs.log_type := "spin"; GameLogs.message := wheel_spinning |}
    :: firstn 19 (getGameLogs 100 two_player_round).
Proof.
  apply (latest_log_comes_first 100 (Some 1) "spin" wheel_spinning
           two_player_round line_logged).
  vm_compute. reflexivity.
Defined.

Lemma spinWheel_moves_no_gift_witness :
  exists o,
    WheelGame.spinWheel (9#10) 200 alice_client two_player_round = Some o /\
    player_gifts (WheelGame.store o) = player_gifts two_player_round /\
    game_participants (WheelGame.store o) = game_participants two_player_round /\
    game_participant_gifts (WheelGame.store o) = game_participant_gifts two_player_round /\
    players (WheelGame.store o) = players two_player_round.
Proof.
  eexists. split; [vm_compute; reflexivity|].
  apply (spinWheel_moves_no_gift (9#10) 200 alice_client two_player_round).
  vm_compute. reflexivity.
Defined.

Lemma spinWheel_archives_the_caller_witness :
  exists o,
    WheelGame.spinWheel (9#10) 200 alice_client two_player_round = Some o /\
    (match_history (WheelGame.store o) = match_history two_player_round \/
     exists m me drawn g,
       match_history (WheelGame.store o) = match_history two_player_round ++ [m] /\
       WheelGame.currentPlayer alice_client = Some me /\
       WheelGame.currentGameId alice_client = Some g /\
       WheelGame.selectedWinner o = Some drawn /\
       MatchHistory.game_id m = g /\
       MatchHistory.winner_player_id m = Players.id me /\
       Some (MatchHistory.winner_chance m)
       = WheelGame.winnerChance_of drawn (WheelGame.activePlayers alice_client) /\
       MatchHistory.total_pot m
       = WheelGame.totalGiftValue (WheelGame.activePlayers alice_client)).
Proof.
  eexists. split; [vm_compute; reflexivity|].
  apply (spinWheel_archives_the_caller (9#10) 200 alice_client two_player_round).
  vm_compute. reflexivity.
Defined.

Lemma handleGiftSelection_updates_one_entry_witness :
  NoDup (map Selected.id (handleGiftSelection 50 5 three_stars)) /\
  Forall (fun g => Selected.quantity g <> 0) (handleGiftSelection 50 5 three_stars) /\
  (0 < 5 ->
   option_map Selected.quantity
     (find (has_id 50) (handleGiftSelection 50 5 three_stars)) = Some 5) /\
  (5 = 0 -> find (has_id 50) (handleGiftSelection 50 5 three_stars) = None) /\
  (forall j, j <> 50 ->
     find (has_id j) (handleGiftSelection 50 5 three_stars) = find (has_id j) three_stars).
Proof.
  apply (handleGiftSelection_updates_one_entry 50 5 three_stars).
  - vm_compute. repeat constructor. intros [].
  - repeat constructor. vm_compute. discriminate.
Defined.

Lemma countdown_runs_out_witness :
  ticks 60 (Some 60) = Some (Z.max 0 (60 - Z.of_nat 60)) /\
  (auto_spin (ticks 60 (Some 60)) alice_client = true <->
   60 <= Z.of_nat 60 /\ WheelGame.isSpinning alice_client = false /\
   (2 <= List.length (WheelGame.activePlayers alice_client))%nat).
Proof.
  apply (countdown_runs_out 60 60 alice_client). lia.
Defined.

